(** * Crop-to-trial aggregation and the epoch prediction cache

    A shallow embedding of [braindecode/scoring.py]:
    - [trial_preds_from_supercrop_preds], the window-to-trial reassembler;
    - the label mask computed in [CroppedTrialEpochScoring.on_epoch_end];
    - [_cache_net_forward_iter], the scoped override of [net.forward_iter];
    - the epoch-end hooks of [CroppedTrialEpochScoring] and
      [PostEpochTrainScoring] with their broadcast to sibling callbacks.

    Integers are Python integers ([Z]); a 2-d array is the list of its rows;
    Python exceptions are values of [exn] and fallible code returns
    [result]. *)

From Stdlib Require Import ZArith Lia.
From stdpp Require Import base list strings gmap.

(** ** Exceptions and the error monad *)

Inductive exn : Type :=
| AssertionError (msg : option string)
| ValueError
| IndexError
| KeyError (key : string)
| TypeError
| AttributeError
| UserError (code : Z).

Definition result (A : Type) : Type := (exn + A)%type.

Definition ok {A} (a : A) : result A := inr a.
Definition raise {A} (e : exn) : result A := inl e.

Definition rbind {A B} (m : result A) (f : A -> result B) : result B :=
  match m with
  | inl e => inl e
  | inr a => f a
  end.

Notation "'let*' x ':=' m 'in' k" := (rbind m (fun x => k))
  (at level 10, x pattern, m at level 100, k at level 200).

(** [assert cond, msg] *)
Definition py_assert (cond : bool) (msg : option string) : result unit :=
  if cond then ok tt else raise (AssertionError msg).

(** A [for] loop whose body may raise: the first exception ends the loop. *)
Fixpoint for_each {S X} (body : S -> X -> result S) (st : S) (xs : list X)
  : result S :=
  match xs with
  | [] => ok st
  | x :: xs' => let* st' := body st x in for_each body st' xs'
  end.

(** ** numpy arrays and slices *)

Module Numpy.

(** A 2-d array, axis 0 first: the list of its rows.  For a window
    prediction the rows are the classes and the columns the time steps. *)
Definition array2 (A : Type) : Type := list (list A).

(** Start position of the Python slice [a[start:]] on a sequence of [len]
    items: a negative [start] counts from the end, and both ends clip. *)
Definition slice_start (start : Z) (len : nat) : nat :=
  if (start <? 0)%Z
  then Z.to_nat (Z.max 0 (start + Z.of_nat len))
  else Z.to_nat (Z.min start (Z.of_nat len)).

(** [a[start:]] *)
Definition slice_from {A} (start : Z) (a : list A) : list A :=
  drop (slice_start start (length a)) a.

(** [a[:, start:]] *)
Definition slice_from_axis1 {A} (start : Z) (a : array2 A) : array2 A :=
  map (slice_from start) a.

(** [np.concatenate(arrays, axis=1)]: an empty list of arrays and arrays
    that disagree on the number of rows raise [ValueError]. *)
Fixpoint concatenate_axis1 {A} (arrays : list (array2 A))
  : result (array2 A) :=
  match arrays with
  | [] => raise ValueError
  | a :: rest =>
      match rest with
      | [] => ok a
      | _ :: _ =>
          let* r := concatenate_axis1 rest in
          if (length a =? length r)%nat
          then ok (zip_with app a r)
          else raise ValueError
      end
  end.

(** [np.concatenate(arrays)] (axis 0) on 1-d arrays or on batches. *)
Definition concatenate_axis0 {A} (arrays : list (list A)) : result (list A) :=
  match arrays with
  | [] => raise ValueError
  | _ :: _ => ok (concat arrays)
  end.

(** [np.diff(a, prepend=[p])] *)
Fixpoint diff_from (prev : Z) (a : list Z) : list Z :=
  match a with
  | [] => []
  | x :: a' => (x - prev)%Z :: diff_from x a'
  end.

Definition diff_prepend (p : Z) (a : list Z) : list Z := diff_from p a.

(** [a[mask]] for a boolean [mask]: the lengths must agree. *)
Fixpoint select {A} (a : list A) (mask : list bool) : list A :=
  match a, mask with
  | x :: a', b :: mask' => if b then x :: select a' mask' else select a' mask'
  | _, _ => []
  end.

Definition boolean_index {A} (a : list A) (mask : list bool)
  : result (list A) :=
  if (length a =? length mask)%nat then ok (select a mask)
  else raise IndexError.

End Numpy.

(** ** The window-to-trial reassembler *)

Module Reassembler.
Import Numpy.

Record loop_state (A : Type) : Type := LoopState {
  preds_per_trial : list (array2 A);
  cur_trial_preds : list (array2 A);
  i_last_stop : option Z;
  i_last_supercrop : Z
}.
Arguments LoopState {A}.
Arguments preds_per_trial {A}.
Arguments cur_trial_preds {A}.
Arguments i_last_stop {A}.
Arguments i_last_supercrop {A}.

Definition start_msg : option string :=
  Some "supercrop numbers in new trial should start from 0"%string.

(** State before the first iteration. *)
Definition loop_init {A} : loop_state A :=
  LoopState [] [] None (-1).

(** The [if i_supercrop != (i_last_supercrop + 1)] block. *)
Definition new_trial_check {A} (st : loop_state A) (i_supercrop : Z)
  : result (loop_state A) :=
  if negb (i_supercrop =? i_last_supercrop st + 1)%Z then
    let* _ := py_assert (i_supercrop =? 0)%Z start_msg in
    let* trial := concatenate_axis1 (cur_trial_preds st) in
    ok (LoopState (preds_per_trial st ++ [trial]) [] None
          (i_last_supercrop st))
  else ok st.

(** The [if i_last_stop is not None] block. *)
Definition remove_duplicates {A} (last_stop : option Z) (i_stop : Z)
    (supercrop_preds : array2 A) : array2 A :=
  match last_stop with
  | Some last =>
      let n_needed_preds := (i_stop - last)%Z in
      slice_from_axis1 (- n_needed_preds) supercrop_preds
  | None => supercrop_preds
  end.

(** One iteration of the loop over the zipped inputs. *)
Definition loop_body {A} (st : loop_state A) (x : array2 A * (Z * Z))
  : result (loop_state A) :=
  let '(supercrop_preds, (i_supercrop, i_stop)) := x in
  let* st1 := new_trial_check st i_supercrop in
  let supercrop_preds' :=
    remove_duplicates (i_last_stop st1) i_stop supercrop_preds in
  ok (LoopState (preds_per_trial st1)
        (cur_trial_preds st1 ++ [supercrop_preds'])
        (Some i_stop) i_supercrop).

(** The statements after the loop. *)
Definition finish {A} (st : loop_state A) : result (list (array2 A)) :=
  let* trial := concatenate_axis1 (cur_trial_preds st) in
  ok (preds_per_trial st ++ [trial]).

Definition trial_preds_from_supercrop_preds {A}
    (preds : list (array2 A)) (i_supercrop_in_trials i_stop_in_trials : list Z)
  : result (list (array2 A)) :=
  let* _ := py_assert
              (length preds =? length i_supercrop_in_trials)%nat None in
  let* _ := py_assert
              (length i_supercrop_in_trials =? length i_stop_in_trials)%nat
              None in
  let* st := for_each loop_body loop_init
               (zip preds (zip i_supercrop_in_trials i_stop_in_trials)) in
  finish st.

End Reassembler.

Import Numpy Reassembler.


(** ** Trials, as the reassembler's caller sees them *)

Section Trials.
Context {A : Type}.

(** A trial: its windows in order, each with its stop position. *)
Definition trial : Type := list (array2 A * Z).

(** The loop's view of a trial whose first window has number [k]. *)
Fixpoint number_from (k : Z) (t : trial) : list (array2 A * (Z * Z)) :=
  match t with
  | [] => []
  | (w, s) :: t' => (w, (k, s)) :: number_from (k + 1) t'
  end.

Definition windows_of_trials (ts : list trial) : list (array2 A * (Z * Z)) :=
  concat (map (number_from 0) ts).

(** Does the next window open a trial?  The end of the input closes one. *)
Definition starts_trial (l : list (array2 A * (Z * Z))) : bool :=
  match l with
  | [] => true
  | (_, (i, _)) :: _ => (i =? 0)%Z
  end.

(** The windows of the input cut before every window of number 0. *)
Fixpoint split_trials (l : list (array2 A * (Z * Z))) : list trial :=
  match l with
  | [] => []
  | (w, (_, s)) :: l' =>
      match split_trials l' with
      | g :: gs =>
          if starts_trial l' then [(w, s)] :: g :: gs
          else ((w, s) :: g) :: gs
      | [] => [[(w, s)]]
      end
  end.

(** Window numbers as the data model has them: the first is 0 and each
    one is the successor of the one before it or 0 again. *)
Fixpoint follows (prev : Z) (idx : list Z) : bool :=
  match idx with
  | [] => true
  | i :: idx' => ((i =? prev + 1)%Z || (i =? 0)%Z) && follows i idx'
  end.

Definition well_formed (idx : list Z) : bool :=
  match idx with
  | [] => false
  | i :: idx' => (i =? 0)%Z && follows i idx'
  end.

(** The window numbers of the zipped input. *)
Definition numbers (l : list (array2 A * (Z * Z))) : list Z :=
  map (fun x => fst (snd x)) l.

(** What the loop keeps of the windows of one trial. *)
Fixpoint kept_from (last : option Z) (t : trial) : list (array2 A) :=
  match t with
  | [] => []
  | (w, s) :: t' => remove_duplicates last s w :: kept_from (Some s) t'
  end.

(** The stop the loop remembers after the windows of a trial. *)
Fixpoint last_stop_from (last : option Z) (t : trial) : option Z :=
  match t with
  | [] => last
  | (_, s) :: t' => last_stop_from (Some s) t'
  end.

Definition trial_pred (t : trial) : result (array2 A) :=
  concatenate_axis1 (kept_from None t).

(** The last [n] columns of an array. *)
Definition last_columns (n : nat) (a : array2 A) : array2 A :=
  map (fun row => drop (length row - n) row) a.

(** Successive windows of a trial that do not overlap: the stop advances
    by the length of the window. *)
Fixpoint no_overlap_from (last : Z) (t : trial) : bool :=
  match t with
  | [] => true
  | (w, s) :: t' =>
      forallb (fun row => (Z.of_nat (length row) =? s - last)%Z) w
      && no_overlap_from s t'
  end.

Definition no_overlap (t : trial) : bool :=
  match t with
  | [] => true
  | (_, s) :: t' => no_overlap_from s t'
  end.

End Trials.
Arguments trial : clear implicits.

(** Results of a list of fallible computations, the first error wins. *)
Fixpoint all_ok {A} (rs : list (result A)) : result (list A) :=
  match rs with
  | [] => ok []
  | r :: rs' => let* a := r in let* l := all_ok rs' in ok (a :: l)
  end.


(** ** Tensors, the net and the callbacks *)

Module Scoring.

Definition device : Type := string.
Definition label : Type := Z.
Definition score : Type := Z.

Section Scoring.
(** Scalars of the predictions, with [np.mean] of one row of them. *)
Context {F : Type} (mean : list F -> F).
(** Data sets and the inputs of a batch are opaque. *)
Context {dataset batch_X : Type}.

(** What [.numpy()] gives for the tensors the callbacks hold: a batch of
    window predictions (windows x classes x time) or the per-trial means
    (trials x classes). *)
Inductive ndarray : Type :=
| Windows (ws : list (array2 F))
| Matrix (rows : list (list F)).

Record tensor : Type := Tensor { data : ndarray; tensor_device : device }.

(** [yp.to(device=dev)] *)
Definition to (dev : device) (yp : tensor) : tensor := Tensor (data yp) dev.

(** The value of [y_trues_]: the list of label batches that accumulates
    during the epoch, or an array of labels. *)
Inductive labels : Type :=
| LabelBatches (batches : list (list label))
| LabelArray (ys : list label).

(** The arguments of one call of [net.forward_iter]: the positional
    ones, the keyword [device] when it is given, the other keywords. *)
Inductive value : Type :=
| VDataset (d : dataset)
| VBool (b : bool)
| VInt (z : Z).

Record call : Type := Call {
  args : list value;
  device_kw : option device;
  kwargs : list (string * value)
}.

(** The dict that [net.predict_with_supercrop_inds_and_ys] returns and
    that [on_epoch_end] builds on the validation set. *)
Record pred_results : Type := PredResults {
  i_supercrop_in_trials : list Z;
  i_supercrop_stops : list Z;
  preds : list (array2 F);
  supercrop_ys : list label
}.

(** *** The scoring function: a program over the net it is given *)

(** A scoring function returns a score, raises, or runs inference with
    [net.forward_iter] and goes on with the batches it got. *)
Inductive prog (R : Type) : Type :=
| Return (r : R)
| Throw (e : exn)
| Infer (c : call) (k : list tensor -> prog R).
Arguments Return {R}.
Arguments Throw {R}.
Arguments Infer {R}.

(** *** The callbacks *)

Inductive kind : Type :=
| CroppedTrialEpochScoring
| PostEpochTrainScoring
| OtherCallback.

Record callback : Type := Callback {
  cb_kind : kind;
  name : string;
  on_train : bool;
  use_caching : bool;
  scoring : dataset -> labels -> prog score;
  target_extractor : list label -> list label;
  crops_to_trials_computed : bool;
  y_preds_ : list tensor;
  y_trues_ : labels;
  supercrop_inds_ : list (list Z * list Z * list Z)
}.

(** The callbacks that share one computation. *)
Inductive group : Type :=
| CroppedGroup (train : bool)
| PostEpochGroup.

Definition group_of (cb : callback) : option group :=
  match cb_kind cb with
  | CroppedTrialEpochScoring => Some (CroppedGroup (on_train cb))
  | PostEpochTrainScoring => Some PostEpochGroup
  | OtherCallback => None
  end.

(** *** The class of the net *)

(** The methods of the net's class that the callbacks call.
    [forward_iter] stands for the batches the bound method yields.
    [history_record] stands for what [_record_score] writes into
    [net.history] for a callback and its score: the callbacks inherit that
    method from skorch's [EpochScoring], this repository does not define
    it. *)
Record net_class : Type := NetClass {
  forward_iter : call -> result (list tensor);
  predict_with_supercrop_inds_and_ys : dataset -> result pred_results;
  get_iterator : dataset -> list (batch_X * list label);
  evaluation_step : batch_X -> result tensor;
  history_record :
    callback -> score -> list (string * score) -> list (string * score)
}.
Context (cls : net_class).

(** *** The world: the net object, its callbacks and its history *)

(** Entries of [net.__dict__]. *)
Inductive attr : Type :=
| CachedForwardIter (default_device : device) (y_preds : nat)
| OtherAttr (v : Z).

(** Observations, kept to count what happened; not part of the program. *)
Inductive event : Type :=
| SetForwardIter
| DelForwardIter
| Compute (g : group).

(** The net with what hangs on it.  [callbacks] are the callbacks of the
    net, in the order of [net._default_callbacks + net.callbacks]: the
    epoch-end event runs their hooks and the broadcast loops go through
    them; a callback is known by its position. *)
Record world : Type := World {
  net_dict : gmap string attr;
  net_device : device;
  iterators : list (list tensor);
  history : list (string * score);
  callbacks : list callback;
  log : list event
}.

(** State and exceptions: what was written before a [raise] stays. *)
Definition M (R : Type) : Type := world -> result R * world.

Definition mret {R} (r : R) : M R := fun w => (ok r, w).
Definition mraise {R} (e : exn) : M R := fun w => (raise e, w).
Definition mbind {R S} (m : M R) (f : R -> M S) : M S :=
  fun w =>
    match m w with
    | (inl e, w') => (inl e, w')
    | (inr r, w') => f r w'
    end.
Definition lift {R} (r : result R) : M R := fun w => (r, w).
Definition get {R} (f : world -> R) : M R := fun w => (ok (f w), w).
Definition modify (f : world -> world) : M unit := fun w => (ok tt, f w).

(** [try: body finally: cleanup]; an exception of [cleanup] replaces the
    outcome of [body]. *)
Definition try_finally {R} (body : M R) (cleanup : M unit) : M R :=
  fun w =>
    let '(r, w1) := body w in
    match cleanup w1 with
    | (inl e, w2) => (inl e, w2)
    | (inr _, w2) => (r, w2)
    end.

Notation "x <-- m ;; k" := (mbind m (fun x => k))
  (at level 100, m at next level, right associativity,
   format "'[v' x  <--  m  ;;  '/' k ']'").

Definition set_net_dict (d : gmap string attr) (w : world) : world :=
  World d (net_device w) (iterators w) (history w) (callbacks w) (log w).
Definition set_iterators (its : list (list tensor)) (w : world) : world :=
  World (net_dict w) (net_device w) its (history w) (callbacks w) (log w).
Definition set_history (h : list (string * score)) (w : world) : world :=
  World (net_dict w) (net_device w) (iterators w) h (callbacks w) (log w).
Definition set_callbacks (cbs : list callback) (w : world) : world :=
  World (net_dict w) (net_device w) (iterators w) (history w) cbs (log w).
Definition observe (ev : event) : M unit :=
  modify (fun w =>
    World (net_dict w) (net_device w) (iterators w) (history w) (callbacks w)
      (log w ++ [ev])).

(** *** The epoch prediction cache *)

(** [iter(y_preds)]: a new iterator object, at the start of the list. *)
Definition new_iterator (y_preds : list tensor) : M nat :=
  fun w => (ok (length (iterators w)),
            set_iterators (iterators w ++ [y_preds]) w).

(** A generator made by [cached_forward_iter]: its [device] and the
    iterator [y_preds] of the enclosing scope, which it shares with every
    other generator of that scope. *)
Record generator : Type := Generator { gen_device : device; gen_y_preds : nat }.

(** The call [cached_forward_iter(...)]: the positional and the other
    keyword arguments are not used; [device] defaults to [net.device] as
    it was when the function was defined. *)
Definition cached_forward_iter (default_device : device) (y_preds : nat)
    (c : call) : generator :=
  Generator (default default_device (device_kw c)) y_preds.

(** [next(g)]: one round of [for yp in y_preds: yield yp.to(device=device)];
    [None] is [StopIteration]. *)
Definition generator_next (g : generator) : M (option tensor) :=
  fun w =>
    match iterators w !! gen_y_preds g with
    | Some (yp :: rest) =>
        (ok (Some (to (gen_device g) yp)),
         set_iterators (<[gen_y_preds g := rest]> (iterators w)) w)
    | _ => (ok None, w)
    end.

(** [list(g)]: the generator run to its end. *)
Definition generator_list (g : generator) : M (list tensor) :=
  fun w =>
    match iterators w !! gen_y_preds g with
    | Some remaining =>
        (ok (map (to (gen_device g)) remaining),
         set_iterators (<[gen_y_preds g := []]> (iterators w)) w)
    | None => (ok [], w)
    end.

(** At most [n] rounds of [next(g)], until [StopIteration]. *)
Fixpoint generator_take (n : nat) (g : generator) : M (list tensor) :=
  match n with
  | O => mret []
  | S n' =>
      o <-- generator_next g ;;
      match o with
      | Some yp => yps <-- generator_take n' g ;; mret (yp :: yps)
      | None => mret []
      end
  end.

(** [net.forward_iter = f] and [del net.__dict__["forward_iter"]]. *)
Definition set_forward_iter (f : attr) : M unit :=
  _ <-- observe SetForwardIter ;;
  modify (fun w => set_net_dict (<["forward_iter" := f]> (net_dict w)) w).

Definition del_forward_iter : M unit :=
  fun w =>
    match net_dict w !! "forward_iter" with
    | Some _ =>
        (_ <-- observe DelForwardIter ;;
         modify (fun w => set_net_dict (delete "forward_iter" (net_dict w)) w))
          w
    | None => (raise (KeyError "forward_iter"), w)
    end.

(** The batches of [net.forward_iter(...)]: the entry of the instance
    dict when there is one, the bound method of the class otherwise. *)
Definition call_forward_iter (c : call) : M (list tensor) :=
  fun w =>
    match net_dict w !! "forward_iter" with
    | Some (CachedForwardIter dev y_preds) =>
        generator_list (cached_forward_iter dev y_preds c) w
    | Some (OtherAttr _) => (raise TypeError, w)
    | None => (forward_iter cls c, w)
    end.

(** A scoring function at work on the net. *)
Fixpoint run {R} (p : prog R) : M R :=
  match p with
  | Return r => mret r
  | Throw e => mraise e
  | Infer c k => ys <-- call_forward_iter c ;; run (k ys)
  end.

(** [with _cache_net_forward_iter(net, use_caching, y_preds) as cached_net:
    body]; [cached_net] is [net] itself. *)
Definition override_forward_iter (y_preds : list tensor) : M unit :=
  y_preds <-- new_iterator y_preds ;;
  dev <-- get net_device ;;
  set_forward_iter (CachedForwardIter dev y_preds).

Definition _cache_net_forward_iter {R} (use_caching : bool)
    (y_preds : list tensor) (body : M R) : M R :=
  if negb use_caching then body
  else
    _ <-- override_forward_iter y_preds ;;
    try_finally body del_forward_iter.

(** The world at the start of the [with] block when caching is on. *)
Definition inside_scope (y_preds : list tensor) (w : world) : world :=
  (override_forward_iter y_preds w).2.

(** One [next] on each generator of a list, in turn. *)
Fixpoint next_each (gs : list generator) : M (list (option tensor)) :=
  match gs with
  | [] => mret []
  | g :: gs' =>
      o <-- generator_next g ;;
      os <-- next_each gs' ;;
      mret (o :: os)
  end.

(** *** The epoch-end hooks *)

Definition get_callback (i : nat) : M callback :=
  fun w =>
    match callbacks w !! i with
    | Some cb => (ok cb, w)
    | None => (raise IndexError, w)
    end.

(** [self._record_score(net.history, current_score)]: the inherited
    method of skorch is handed the history of the net and the score. *)
Definition _record_score (self : callback) (current_score : score) : M unit :=
  modify (fun w =>
    set_history (history_record cls self current_score (history w)) w).

(** [_initialize_cache] *)
Definition _initialize_cache (self : callback) : callback :=
  Callback (cb_kind self) (name self) (on_train self) (use_caching self)
    (scoring self) (target_extractor self)
    match cb_kind self with
    | CroppedTrialEpochScoring => false
    | _ => crops_to_trials_computed self
    end
    [] (LabelBatches [])
    match cb_kind self with
    | CroppedTrialEpochScoring =>
        if negb (on_train self) then [] else supercrop_inds_ self
    | _ => supercrop_inds_ self
    end.

(** [y_pred.cpu().numpy()] of a batch of window predictions; the 2-d
    array of a tensor of trial means has no windows to reassemble, its
    shape error is raised here. *)
Definition windows_of (y_pred : tensor) : result (list (array2 F)) :=
  match data y_pred with
  | Windows ws => ok ws
  | Matrix _ => raise ValueError
  end.

(** [[y.cpu().numpy() for y in self.y_trues_]] *)
Definition label_batches (y_trues : labels) : result (list (list label)) :=
  match y_trues with
  | LabelBatches batches => ok batches
  | LabelArray [] => ok []
  | LabelArray (_ :: _) => raise AttributeError
  end.

(** The [else] branch that fills [pred_results] from the buffers. *)
Definition buffered_pred_results (self : callback) : result pred_results :=
  let* idx :=
    concatenate_axis0 (map (fun i => i.1.1) (supercrop_inds_ self)) in
  let* stops :=
    concatenate_axis0 (map (fun i => i.2) (supercrop_inds_ self)) in
  let* batches := all_ok (map windows_of (y_preds_ self)) in
  let* preds := concatenate_axis0 batches in
  let* ys_batches := label_batches (y_trues_ self) in
  let* ys := concatenate_axis0 ys_batches in
  ok (PredResults idx stops preds ys).

(** [np.diff(i_supercrop_in_trials, prepend=[1]) != -1] *)
Definition supercrop_0_per_trial_mask (i_supercrop_in_trials : list Z)
  : list bool :=
  map (fun d => negb (d =? -1)%Z) (diff_prepend 1 i_supercrop_in_trials).

(** [pred_results['supercrop_ys'][supercrop_0_per_trial_mask]] *)
Definition trial_ys_of (pred : pred_results) : result (list label) :=
  boolean_index (supercrop_ys pred)
    (supercrop_0_per_trial_mask (i_supercrop_in_trials pred)).

(** [np.array(rows)] of 1-d arrays: they must have the same length. *)
Definition np_array_2d (rows : list (list F)) : result (list (list F)) :=
  match rows with
  | [] => ok []
  | r :: rs =>
      if forallb (fun r' => (length r' =? length r)%nat) rs then ok rows
      else raise ValueError
  end.

(** [[torch.tensor(np.array([np.mean(p, axis=1) for p in trial_preds]))]] *)
Definition y_preds_per_trial_of (trial_preds : list (array2 F))
  : result (list tensor) :=
  let* m := np_array_2d (map (map mean) trial_preds) in
  ok [Tensor (Matrix m) "cpu"].

Definition is_cropped_on (train : bool) (cb : callback) : bool :=
  match cb_kind cb with
  | CroppedTrialEpochScoring => Bool.eqb (on_train cb) train
  | _ => false
  end.

Definition is_post_epoch (cb : callback) : bool :=
  match cb_kind cb with
  | PostEpochTrainScoring => true
  | _ => false
  end.

(** The assignments of the broadcast loops. *)
Definition set_trial_results (y_preds : list tensor) (y_trues : labels)
    (cb : callback) : callback :=
  Callback (cb_kind cb) (name cb) (on_train cb) (use_caching cb)
    (scoring cb) (target_extractor cb) true y_preds y_trues
    (supercrop_inds_ cb).

Definition set_preds (y_preds : list tensor) (y_trues : labels)
    (cb : callback) : callback :=
  Callback (cb_kind cb) (name cb) (on_train cb) (use_caching cb)
    (scoring cb) (target_extractor cb) (crops_to_trials_computed cb)
    y_preds y_trues (supercrop_inds_ cb).

Definition broadcast (member : callback -> bool)
    (assign : callback -> callback) : M unit :=
  modify (fun w =>
    set_callbacks
      (map (fun cb => if member cb then assign cb else cb) (callbacks w)) w).

(** The lines after the caching block, the same in both hooks. *)
Definition score_and_record (self : callback) (use_caching : bool)
    (dataset_ : dataset) : M unit :=
  current_score <--
    _cache_net_forward_iter use_caching (y_preds_ self)
      (run (scoring self dataset_ (y_trues_ self))) ;;
  _record_score self current_score.

(** In [if not self.crops_to_trials_computed]: from [pred_results] to
    [y_preds_per_trial] and [trial_ys]. *)
Definition trial_preds_and_ys (self : callback) (dataset_train : dataset)
  : result (list tensor * labels) :=
  let* pred := (if on_train self
                then predict_with_supercrop_inds_and_ys cls dataset_train
                else buffered_pred_results self) in
  let* trial_ys := trial_ys_of pred in
  let* trial_preds := trial_preds_from_supercrop_preds (preds pred)
                        (i_supercrop_in_trials pred)
                        (i_supercrop_stops pred) in
  let* y_preds_per_trial := y_preds_per_trial_of trial_preds in
  ok (y_preds_per_trial, LabelArray trial_ys).

(** The body of [if not self.crops_to_trials_computed], with the loop
    over [epoch_cbs] at its end. *)
Definition crops_to_trials (self : callback) (dataset_train : dataset)
  : M unit :=
  _ <-- observe (Compute (CroppedGroup (on_train self))) ;;
  res <-- lift (trial_preds_and_ys self dataset_train) ;;
  broadcast (is_cropped_on (on_train self))
    (set_trial_results res.1 res.2).

(** The hook up to the end of [if not self.crops_to_trials_computed]. *)
Definition trial_results (i : nat) (dataset_train : dataset) : M unit :=
  self <-- get_callback i ;;
  _ <-- lift (py_assert (use_caching self) None) ;;
  if negb (crops_to_trials_computed self)
  then crops_to_trials self dataset_train
  else mret tt.

Definition CroppedTrialEpochScoring_on_epoch_end (i : nat)
    (dataset_train dataset_valid : dataset) : M unit :=
  _ <-- trial_results i dataset_train ;;
  self <-- get_callback i ;;
  let dataset_ := if on_train self then dataset_train else dataset_valid in
  score_and_record self (use_caching self) dataset_.

(** The loop over the batches of the training set. *)
Definition recompute_batch (self : callback)
    (acc : list tensor * list (list label)) (batch : batch_X * list label)
  : result (list tensor * list (list label)) :=
  let '(y_preds, y_test) := acc in
  let '(batch_X_, batch_y) := batch in
  let* yp := evaluation_step cls batch_X_ in
  let yp := to "cpu" yp in
  ok (y_preds ++ [yp], y_test ++ [target_extractor self batch_y]).

(** In [if len(self.y_preds_) == 0]: [y_preds] and [y_test]. *)
Definition recomputed (self : callback) (dataset_train : dataset)
  : result (list tensor * labels) :=
  let* acc := for_each (recompute_batch self) ([], [])
                (get_iterator cls dataset_train) in
  let* y_test := concatenate_axis0 acc.2 in
  ok (acc.1, LabelArray y_test).

(** The body of [if len(self.y_preds_) == 0], with the loop over
    [epoch_cbs] at its end. *)
Definition recompute (self : callback) (dataset_train : dataset) : M unit :=
  _ <-- observe (Compute PostEpochGroup) ;;
  res <-- lift (recomputed self dataset_train) ;;
  broadcast is_post_epoch (set_preds res.1 res.2).

(** The hook up to the end of [if len(self.y_preds_) == 0]. *)
Definition recomputed_preds (i : nat) (dataset_train : dataset) : M unit :=
  self <-- get_callback i ;;
  if (length (y_preds_ self) =? 0)%nat
  then recompute self dataset_train
  else mret tt.

Definition PostEpochTrainScoring_on_epoch_end (i : nat)
    (dataset_train dataset_valid : dataset) : M unit :=
  _ <-- recomputed_preds i dataset_train ;;
  self <-- get_callback i ;;
  score_and_record self true dataset_train.

Definition on_epoch_end (i : nat) (dataset_train dataset_valid : dataset)
  : M unit :=
  cb <-- get_callback i ;;
  match cb_kind cb with
  | CroppedTrialEpochScoring =>
      CroppedTrialEpochScoring_on_epoch_end i dataset_train dataset_valid
  | PostEpochTrainScoring =>
      PostEpochTrainScoring_on_epoch_end i dataset_train dataset_valid
  | OtherCallback => mret tt
  end.

(** The epoch-end event: the hooks of the callbacks at the positions
    [order], one after the other; an exception ends the event. *)
Fixpoint notify_on_epoch_end (order : list nat)
    (dataset_train dataset_valid : dataset) : M unit :=
  match order with
  | [] => mret tt
  | i :: order' =>
      _ <-- on_epoch_end i dataset_train dataset_valid ;;
      notify_on_epoch_end order' dataset_train dataset_valid
  end.

(** Does the hook of [cb] start the shared computation? *)
Definition needs_compute (cb : callback) : bool :=
  match cb_kind cb with
  | CroppedTrialEpochScoring => negb (crops_to_trials_computed cb)
  | PostEpochTrainScoring => (length (y_preds_ cb) =? 0)%nat
  | OtherCallback => false
  end.

(** Worlds that differ at most in the state of the iterators. *)
Definition only_iterators_differ (w w' : world) : Prop :=
  net_dict w' = net_dict w /\ net_device w' = net_device w
  /\ history w' = history w /\ callbacks w' = callbacks w
  /\ log w' = log w.

(** *** Counting the observations *)

Definition group_eqb (g1 g2 : group) : bool :=
  match g1, g2 with
  | CroppedGroup a, CroppedGroup b => Bool.eqb a b
  | PostEpochGroup, PostEpochGroup => true
  | _, _ => false
  end.

Definition event_eqb (e1 e2 : event) : bool :=
  match e1, e2 with
  | SetForwardIter, SetForwardIter => true
  | DelForwardIter, DelForwardIter => true
  | Compute g1, Compute g2 => group_eqb g1 g2
  | _, _ => false
  end.

Definition occurrences (ev : event) (evs : list event) : nat :=
  length (List.filter (event_eqb ev) evs).

(** How often the shared computation of a group was started. *)
Definition computations (g : group) (w : world) : nat :=
  occurrences (Compute g) (log w).

(** Is [cb] a callback of the group [g]? *)
Definition in_group (g : group) (cb : callback) : bool :=
  match group_of cb with
  | Some g' => group_eqb g g'
  | None => false
  end.

(** Nothing is computed yet for [cb]: the state at the start of the
    epoch-end event. *)
Definition fresh (cb : callback) : bool :=
  match group_of cb with
  | Some _ => needs_compute cb
  | None => true
  end.

(** Is the hook of a callback of the group [g] among those of [order]? *)
Definition touched (g : group) (order : list nat) (w : world) : bool :=
  existsb (fun i =>
             match callbacks w !! i with
             | Some cb => in_group g cb
             | None => false
             end) order.

(** What the hook of a callback of the group [g] does to the callbacks
    and to the counts: with [compute], the shared computation is started
    once and every callback of the group gets its outcome; without,
    nothing. *)
Definition hook_effect (g : group) (compute : bool) (w w' : world) : Prop :=
  if compute then
    (forall g', computations g' w'
                = (computations g' w + if group_eqb g' g then 1 else 0)%nat)
    /\ exists p y,
         Forall2 (fun cb cb' =>
                    group_of cb' = group_of cb
                    /\ if in_group g cb
                       then needs_compute cb' = false
                            /\ y_preds_ cb' = p /\ y_trues_ cb' = y
                       else cb' = cb)
           (callbacks w) (callbacks w')
  else callbacks w' = callbacks w
       /\ forall g', computations g' w' = computations g' w.

(** The callbacks and the counts of [w], some way into the event that
    started in [w0], after the hooks at the positions [visited]. *)
Definition shared_state (w0 w : world) (visited : list nat) : Prop :=
  Forall2 (fun cb0 cb => group_of cb = group_of cb0)
    (callbacks w0) (callbacks w)
  /\ forall g,
       if touched g visited w0 then
         computations g w = S (computations g w0)
         /\ exists p y,
              Forall (fun cb => in_group g cb = true ->
                                needs_compute cb = false
                                /\ y_preds_ cb = p /\ y_trues_ cb = y)
                (callbacks w)
       else
         computations g w = computations g w0
         /\ Forall2 (fun cb0 cb => in_group g cb0 = true -> cb = cb0)
              (callbacks w0) (callbacks w).

End Scoring.

Arguments Return {F dataset R}.
Arguments Throw {F dataset R}.
Arguments Infer {F dataset R}.

End Scoring.

(** ** A small net and its callbacks, to run the hooks on *)

Module Fixture.
Import Scoring.

(** Integer predictions; the mean of a row rounds down. *)
Definition mean (row : list Z) : Z :=
  (foldr Z.add 0 row / Z.of_nat (length row))%Z.

Definition two_windows : pred_results :=
  PredResults [0; 1]%Z [3; 5]%Z [[[1; 2; 3]]; [[4; 5; 6]]]%Z [7; 7]%Z.

(** A class whose inference yields one batch, whose training set has two
    batches and whose training windows are the two of [two_windows]; the
    history takes each score under the name of its callback. *)
Definition cls : @net_class Z nat nat :=
  NetClass
    (fun _ => ok [Tensor (Matrix [[0]]%Z) "cuda"])
    (fun _ => ok two_windows)
    (fun _ => [(1, [1; 0]%Z); (2, [1]%Z)])
    (fun batch => ok (Tensor (Windows [[[Z.of_nat batch]]]) "cuda"))
    (fun cb s history => history ++ [(name cb, s)]).

(** A scoring function that runs inference once and counts the batches. *)
Definition count_batches (ds : nat) (_ : labels) : @prog Z nat score :=
  Infer (Call [VDataset ds] None []) (fun yps => Return (Z.of_nat (length yps))).


(** A trial scorer on the validation set, after one batch of two
    windows of a trial. *)
Definition valid_scorer (name : string)
    (scoring : nat -> labels -> @prog Z nat score) : @callback Z nat :=
  Callback CroppedTrialEpochScoring name false true scoring (fun ys => ys)
    false
    [Tensor (Windows [[[1; 2; 3]]; [[4; 5; 6]]]%Z) "cuda"]
    (LabelBatches [[7; 7]%Z])
    [([0; 1]%Z, [0; 2]%Z, [3; 5]%Z)].

(** A post-epoch scorer at the end of the epoch. *)
Definition train_scorer (name : string) : @callback Z nat :=
  Callback PostEpochTrainScoring name true false count_batches (fun ys => ys)
    false [] (LabelBatches []) [].

Definition net_with (cbs : list (@callback Z nat)) : @world Z nat :=
  World ∅ "cpu" [] [] cbs [].

End Fixture.

(** ** Further notions on trials and on the event *)

Section Strides.
Context {A : Type}.

(** Later windows of a trial that advance: the stop moves on by at least
    one time step and by at most the length of the rows of the window. *)
Fixpoint advances_from (last : Z) (t : trial A) : bool :=
  match t with
  | [] => true
  | (w, s) :: t' =>
      (0 <? s - last)%Z
      && forallb (fun row => (s - last <=? Z.of_nat (length row))%Z) w
      && advances_from s t'
  end.

Definition advances (t : trial A) : bool :=
  match t with
  | [] => true
  | (_, s) :: t' => advances_from s t'
  end.

(** From the stop of the first window of a trial to the stop of its last
    window. *)
Definition stop_span (t : trial A) : Z :=
  match t with
  | [] => 0
  | (_, s) :: t' => (default s (last_stop_from (Some s) t') - s)%Z
  end.

(** The rows of the prediction of a trial are the rows of its first
    window, longer by [stop_span]. *)
Definition spans (t : trial A) (o : array2 A) : Prop :=
  match t with
  | [] => True
  | (w0, _) :: _ =>
      Forall2 (fun r0 r =>
                 Z.of_nat (length r) = (Z.of_nat (length r0) + stop_span t)%Z)
        w0 o
  end.

End Strides.

Section Setup.
Import Scoring.
Context {F dataset : Type}.

(** Callbacks that differ at most in what the hooks compute and share. *)
Definition same_setup (cb cb' : @callback F dataset) : Prop :=
  cb_kind cb' = cb_kind cb /\ name cb' = name cb
  /\ on_train cb' = on_train cb /\ use_caching cb' = use_caching cb
  /\ scoring cb' = scoring cb.

End Setup.
(** * Properties *)

Example split_trials_ex :
  split_trials [([[1]], (0, 1)); ([[2]], (1, 2)); ([[3]], (0, 1))]%Z
  = [[([[1]], 1); ([[2]], 2)]; [([[3]], 1)]]%Z.
Proof. reflexivity. Qed.

(** ** The error monad *)

Lemma rbind_ok {A B} (a : A) (f : A -> result B) : rbind (ok a) f = f a.
Proof. reflexivity. Qed.

Lemma rbind_assoc {A B C} (m : result A) (f : A -> result B)
    (g : B -> result C) :
  rbind (rbind m f) g = rbind m (fun a => rbind (f a) g).
Proof. destruct m; reflexivity. Qed.

Lemma for_each_app {S X} (body : S -> X -> result S) (l1 l2 : list X) :
  forall st,
    for_each body st (l1 ++ l2)
    = let* st1 := for_each body st l1 in for_each body st1 l2.
Proof.
  induction l1 as [|x l1 IH]; intros st; simpl; [reflexivity|].
  destruct (body st x) as [e|st']; simpl; [reflexivity|apply IH].
Qed.

Lemma all_ok_length {A} (rs : list (result A)) (l : list A) :
  all_ok rs = ok l -> length l = length rs.
Proof.
  revert l; induction rs as [|r rs IH]; intros l; simpl.
  - intros [= <-]; reflexivity.
  - destruct r as [e|a]; simpl; [discriminate|].
    destruct (all_ok rs) as [e|l']; simpl; [discriminate|].
    intros [= <-]; simpl; f_equal; apply IH; reflexivity.
Qed.

Lemma all_ok_Forall2 {A B} (f : B -> result A) (ts : list B) (l : list A) :
  all_ok (map f ts) = ok l -> Forall2 (fun o t => f t = ok o) l ts.
Proof.
  revert l; induction ts as [|t ts IH]; intros l; simpl.
  - intros [= <-]; constructor.
  - destruct (f t) as [e|a] eqn:Ht; simpl; [discriminate|].
    destruct (all_ok (map f ts)) as [e|l']; simpl; [discriminate|].
    intros [= <-]; constructor; [exact Ht|apply IH; reflexivity].
Qed.

Lemma all_ok_total {A B} (f : B -> result A) (ts : list B) :
  Forall (fun t => exists o, f t = ok o) ts ->
  exists l, all_ok (map f ts) = ok l.
Proof.
  induction 1 as [|t ts [o Ho] _ [l Hl]]; simpl.
  - eexists; reflexivity.
  - rewrite Ho, Hl; simpl; eexists; reflexivity.
Qed.

(** ** The loop of the reassembler, trial by trial *)

Section LoopFacts.
Context {A : Type}.
Implicit Types (t : trial A) (ts : list (trial A)) (st : loop_state A).

(** Windows that continue the current trial are appended to the
    accumulator after [remove_duplicates]; nothing is flushed. *)
Lemma loop_continue_trial t :
  forall k st,
    i_last_supercrop st = (k - 1)%Z ->
    for_each loop_body st (number_from k t)
    = ok (LoopState (preds_per_trial st)
            (cur_trial_preds st ++ kept_from (i_last_stop st) t)
            (last_stop_from (i_last_stop st) t)
            (k - 1 + Z.of_nat (length t))).
Proof.
  induction t as [|[w s] t IH]; intros k st Hk; simpl.
  - destruct st as [pp cur ls li]; simpl in *; subst li.
    rewrite app_nil_r, Z.add_0_r; reflexivity.
  - unfold new_trial_check. rewrite Hk.
    replace (k =? k - 1 + 1)%Z with true by (symmetry; apply Z.eqb_eq; lia).
    simpl. rewrite IH by (simpl; lia). simpl.
    rewrite <- app_assoc; simpl. do 2 f_equal. lia.
Qed.

(** The first window of a later trial flushes the accumulator. *)
Lemma loop_new_trial t st :
  t <> [] -> (0 <= i_last_supercrop st)%Z ->
  for_each loop_body st (number_from 0 t)
  = let* flushed := concatenate_axis1 (cur_trial_preds st) in
    ok (LoopState (preds_per_trial st ++ [flushed]) (kept_from None t)
          (last_stop_from None t) (Z.of_nat (length t) - 1)).
Proof.
  destruct t as [|[w s] t]; [congruence|]; intros _ Hli; simpl.
  unfold new_trial_check.
  replace (0 =? i_last_supercrop st + 1)%Z with false
    by (symmetry; apply Z.eqb_neq; lia).
  simpl. destruct (concatenate_axis1 (cur_trial_preds st)) as [e|fl]; simpl;
    [reflexivity|].
  rewrite (loop_continue_trial t 1) by reflexivity. simpl.
  do 2 f_equal. lia.
Qed.

Lemma loop_later_trials ts :
  Forall (fun t => t <> []) ts ->
  forall st, (0 <= i_last_supercrop st)%Z ->
    (let* st' := for_each loop_body st (windows_of_trials ts) in finish st')
    = let* outs := all_ok (map concatenate_axis1
                             (cur_trial_preds st :: map (kept_from None) ts)) in
      ok (preds_per_trial st ++ outs).
Proof.
  induction 1 as [|t ts Ht _ IH]; intros st Hli.
  - simpl. unfold finish.
    destruct (concatenate_axis1 (cur_trial_preds st)); reflexivity.
  - unfold windows_of_trials in *. cbn [map concat].
    rewrite for_each_app, loop_new_trial by assumption.
    rewrite !rbind_assoc. cbn [all_ok map].
    destruct (concatenate_axis1 (cur_trial_preds st)) as [e|fl]; simpl;
      [reflexivity|].
    rewrite IH by (simpl; destruct t; [congruence|simpl; lia]). simpl.
    destruct (concatenate_axis1 (kept_from None t)) as [e|o]; simpl;
      [reflexivity|].
    destruct (all_ok (map concatenate_axis1 (map (kept_from None) ts)))
      as [e|os]; simpl; [reflexivity|].
    rewrite <- app_assoc; reflexivity.
Qed.

(** The loop and the final flush on the windows of a list of trials:
    one array per trial, in the order of the trials. *)
Lemma loop_trials ts :
  ts <> [] -> Forall (fun t => t <> []) ts ->
  (let* st := for_each loop_body loop_init (windows_of_trials ts) in
   finish st)
  = all_ok (map trial_pred ts).
Proof.
  destruct ts as [|t ts]; [congruence|]; intros _ Hne.
  inversion Hne as [|? ? Ht Hts]; subst.
  unfold windows_of_trials. cbn [map concat].
  rewrite for_each_app, (loop_continue_trial t 0) by reflexivity.
  rewrite rbind_ok.
  change (concat (map (number_from 0) ts)) with (windows_of_trials ts).
  rewrite loop_later_trials;
    [|assumption|simpl; destruct t; [congruence|simpl; lia]].
  simpl. unfold trial_pred. rewrite map_map.
  destruct (concatenate_axis1 (kept_from None t)); simpl; [reflexivity|].
  destruct (all_ok _); reflexivity.
Qed.

End LoopFacts.

(** ** Well-formed window numbers cut the input into trials *)

Section SplitFacts.
Context {A : Type}.
Implicit Types (t : trial A) (ts : list (trial A))
  (l : list (array2 A * (Z * Z))).

Lemma split_trials_cons l :
  forall w i s,
    follows i (numbers l) = true ->
    exists g gs,
      split_trials ((w, (i, s)) :: l) = ((w, s) :: g) :: gs
      /\ number_from i ((w, s) :: g) ++ windows_of_trials gs
         = (w, (i, s)) :: l
      /\ Forall (fun t => t <> []) gs.
Proof.
  induction l as [|[w' [i' s']] l IH]; intros w i s Hf.
  - exists [], []. repeat split; constructor.
  - simpl in Hf. apply andb_true_iff in Hf as [Hi Hf].
    destruct (IH w' i' s' Hf) as (g & gs & Hsp & Hw & Hne).
    cbn [split_trials] in Hsp |- *. rewrite Hsp. cbn [starts_trial].
    destruct (i' =? 0)%Z eqn:H0.
    + apply Z.eqb_eq in H0; subst i'.
      exists [], (((w', s') :: g) :: gs). repeat split.
      * unfold windows_of_trials in *. cbn [map concat number_from app].
        f_equal. exact Hw.
      * constructor; [discriminate|assumption].
    + rewrite orb_false_r in Hi. apply Z.eqb_eq in Hi; subst i'.
      exists ((w', s') :: g), gs. repeat split; [|assumption].
      cbn [number_from app] in Hw |- *. f_equal. exact Hw.
Qed.

Lemma split_trials_windows l :
  well_formed (numbers l) = true ->
  windows_of_trials (split_trials l) = l
  /\ Forall (fun t => t <> []) (split_trials l)
  /\ split_trials l <> [].
Proof.
  destruct l as [|[w [i s]] l]; [discriminate|]. cbn [numbers map well_formed].
  intros H. apply andb_true_iff in H as [H0 Hf]. simpl in H0, Hf.
  apply Z.eqb_eq in H0; subst i.
  destruct (split_trials_cons l w 0%Z s Hf) as (g & gs & Hsp & Hw & Hne).
  rewrite Hsp. repeat split.
  - exact Hw.
  - constructor; [discriminate|assumption].
  - discriminate.
Qed.

Lemma count_zero_number_from t :
  forall k, (0 < k)%Z ->
    count_occ Z.eq_dec (numbers (number_from k t)) 0%Z = 0%nat.
Proof.
  induction t as [|[w s] t IH]; intros k Hk; simpl; [reflexivity|].
  destruct (Z.eq_dec k 0%Z); [lia|]. apply IH; lia.
Qed.

Lemma count_zero_windows ts :
  Forall (fun t => t <> []) ts ->
  count_occ Z.eq_dec (numbers (windows_of_trials ts)) 0%Z = length ts.
Proof.
  induction 1 as [|t ts Ht _ IH]; [reflexivity|].
  unfold windows_of_trials, numbers in *. cbn [map concat].
  rewrite map_app, count_occ_app, IH.
  destruct t as [|[w s] t]; [congruence|]. simpl.
  fold (numbers (number_from (0 + 1) t)).
  rewrite count_zero_number_from by lia. reflexivity.
Qed.

Lemma numbers_zip (preds : list (array2 A)) (idx stops : list Z) :
  length preds = length idx -> length stops = length idx ->
  numbers (zip preds (zip idx stops)) = idx.
Proof.
  revert idx stops; induction preds as [|p preds IH];
    intros [|i idx] [|s stops]; simpl; try discriminate; [reflexivity|].
  intros [= H1] [= H2]. unfold numbers in *. simpl. f_equal. apply IH; lia.
Qed.

End SplitFacts.

(** ** Arrays with the same number of rows concatenate *)

Section RowFacts.
Context {A : Type}.
Implicit Types (a : array2 A) (t : trial A).

Lemma concatenate_axis1_rows (n : nat) (arrays : list (array2 A)) :
  arrays <> [] -> Forall (fun a => length a = n) arrays ->
  exists r, concatenate_axis1 arrays = ok r /\ length r = n.
Proof.
  intros Hne H. induction H as [|a rest Ha Hrest IH]; [congruence|].
  destruct rest as [|b rest]; simpl.
  - exists a; split; [reflexivity|exact Ha].
  - destruct IH as (r & Hr & Hlen); [discriminate|].
    simpl in Hr. rewrite Hr. simpl. rewrite Ha, Hlen, Nat.eqb_refl.
    eexists; split; [reflexivity|].
    rewrite length_zip_with; lia.
Qed.

Lemma remove_duplicates_rows last s a :
  length (remove_duplicates last s a) = length a.
Proof.
  destruct last; simpl; [|reflexivity].
  unfold slice_from_axis1. apply length_map.
Qed.

Lemma kept_from_rows (n : nat) t :
  forall last,
    Forall (fun ws => length (fst ws) = n) t ->
    Forall (fun a => length a = n) (kept_from last t).
Proof.
  induction t as [|[w s] t IH]; intros last H; simpl; [constructor|].
  inversion H as [|? ? Hw Ht]. constructor.
  - rewrite remove_duplicates_rows; exact Hw.
  - apply IH; exact Ht.
Qed.

Lemma trial_pred_total (n : nat) t :
  t <> [] -> Forall (fun ws => length (fst ws) = n) t ->
  exists o, trial_pred t = ok o.
Proof.
  intros Hne H. unfold trial_pred.
  destruct (concatenate_axis1_rows n (kept_from None t)) as (r & Hr & _).
  - destruct t as [|[w s] t]; [congruence|discriminate].
  - apply kept_from_rows; assumption.
  - eauto.
Qed.

End RowFacts.

(** ** The reassembler on a well-formed input *)

Section ReassemblerFacts.
Context {A : Type}.
Implicit Types (preds : list (array2 A)) (idx stops : list Z)
  (t : trial A) (ts : list (trial A)).

Lemma rows_of_windows (P : array2 A -> Prop) ts :
  Forall (fun x => P (fst x)) (windows_of_trials ts) ->
  Forall (Forall (fun ws => P (fst ws))) ts.
Proof.
  assert (Hnum : forall t k, Forall (fun x => P (fst x)) (number_from k t) ->
                             Forall (fun ws => P (fst ws)) t).
  { induction t as [|[w s] t IH]; intros k H; [constructor|].
    simpl in H. inversion H as [|? ? Hw Ht]. constructor; [exact Hw|].
    exact (IH _ Ht). }
  induction ts as [|t ts IH]; intros H; [constructor|].
  unfold windows_of_trials in *. cbn [map concat] in H.
  apply Forall_app in H as [H1 H2]. constructor; [|apply IH; exact H2].
  exact (Hnum _ _ H1).
Qed.

Lemma rows_of_zip (P : array2 A -> Prop) preds (ks : list (Z * Z)) :
  Forall P preds -> Forall (fun x => P (fst x)) (zip preds ks).
Proof.
  intros H; revert ks; induction H as [|p preds Hp _ IH]; intros [|k ks];
    simpl; constructor; [exact Hp|apply IH].
Qed.

(** On well-formed window numbers the reassembler returns the prediction
    of each trial of the input, in the order of the trials; an error can
    only come from the concatenation of the windows of a trial. *)
Lemma reassembler_by_trials preds idx stops :
  well_formed idx = true ->
  length preds = length idx -> length stops = length idx ->
  trial_preds_from_supercrop_preds preds idx stops
  = all_ok (map trial_pred (split_trials (zip preds (zip idx stops)))).
Proof.
  intros Hwf Hp Hs. unfold trial_preds_from_supercrop_preds.
  rewrite Hp, Hs, !Nat.eqb_refl. simpl.
  set (l := zip preds (zip idx stops)).
  assert (Hn : numbers l = idx) by (apply numbers_zip; assumption).
  rewrite <- Hn in Hwf.
  destruct (split_trials_windows l Hwf) as (Hw & Hne & Hnil).
  rewrite <- Hw at 1. apply loop_trials; assumption.
Qed.

Lemma slice_from_all (row : list A) :
  slice_from (- Z.of_nat (length row)) row = row.
Proof.
  unfold slice_from, slice_start.
  destruct (- Z.of_nat (length row) <? 0)%Z eqn:E.
  - replace (Z.max 0 _) with 0%Z by lia. reflexivity.
  - apply Z.ltb_ge in E.
    replace (Z.min _ _) with 0%Z by lia. reflexivity.
Qed.

Lemma slice_from_last (n : Z) (row : list A) :
  (0 < n <= Z.of_nat (length row))%Z ->
  slice_from (- n) row = drop (length row - Z.to_nat n) row.
Proof.
  intros Hn. unfold slice_from, slice_start.
  replace (- n <? 0)%Z with true by (symmetry; apply Z.ltb_lt; lia).
  f_equal. lia.
Qed.

Lemma slice_from_zero (row : list A) : slice_from (- 0) row = row.
Proof.
  unfold slice_from, slice_start. simpl.
  replace (Z.min 0 _) with 0%Z by lia. reflexivity.
Qed.

Lemma kept_no_overlap t :
  forall last,
    no_overlap_from last t = true ->
    kept_from (Some last) t = map fst t.
Proof.
  induction t as [|[w s] t IH]; intros last H; simpl in *; [reflexivity|].
  apply andb_true_iff in H as [Hw Ht]. rewrite (IH _ Ht). f_equal.
  unfold slice_from_axis1. rewrite forallb_forall in Hw.
  rewrite <- (map_id w) at 2. apply map_ext_in. intros row Hrow.
  specialize (Hw row Hrow). apply Z.eqb_eq in Hw. rewrite <- Hw.
  apply slice_from_all.
Qed.

Lemma trial_pred_no_overlap t :
  no_overlap t = true -> trial_pred t = concatenate_axis1 (map fst t).
Proof.
  unfold trial_pred. destruct t as [|[w s] t]; [reflexivity|]. simpl.
  intros H. rewrite (kept_no_overlap _ _ H). reflexivity.
Qed.

End ReassemblerFacts.

(** ** One iteration on a window that continues a trial *)

Section StepFacts.
Context {A : Type}.
Implicit Types (st : loop_state A) (w : array2 A).

(** X4.  A window that continues the trial, with [0 < needed <= length]:
    the last [needed] columns are appended to the accumulator. *)
Lemma loop_body_positive_needed st w (i s last : Z) :
  i = (i_last_supercrop st + 1)%Z ->
  i_last_stop st = Some last ->
  (0 < s - last)%Z ->
  Forall (fun row => (s - last <= Z.of_nat (length row))%Z) w ->
  loop_body st (w, (i, s))
  = ok (LoopState (preds_per_trial st)
          (cur_trial_preds st ++ [last_columns (Z.to_nat (s - last)) w])
          (Some s) i).
Proof.
  intros -> Hlast Hpos Hlen. unfold loop_body, new_trial_check.
  rewrite Z.eqb_refl. simpl. rewrite Hlast. simpl.
  do 4 f_equal. unfold slice_from_axis1, last_columns.
  apply map_ext_in. intros row Hrow.
  rewrite Forall_forall in Hlen. apply slice_from_last.
  split; [lia|]. apply Hlen. apply list_elem_of_In. exact Hrow.
Qed.

(** The same window with [needed = 0]: the slice [[:, -0:]] is the whole
    window, which is appended as it is. *)
Lemma loop_body_zero_needed st w (i s : Z) :
  i = (i_last_supercrop st + 1)%Z ->
  i_last_stop st = Some s ->
  loop_body st (w, (i, s))
  = ok (LoopState (preds_per_trial st) (cur_trial_preds st ++ [w])
          (Some s) i).
Proof.
  intros -> Hlast. unfold loop_body, new_trial_check.
  rewrite Z.eqb_refl. simpl. rewrite Hlast. simpl.
  rewrite Z.sub_diag. do 4 f_equal. unfold slice_from_axis1.
  rewrite <- (map_id w) at 2. apply map_ext. intros row.
  apply slice_from_zero.
Qed.

Lemma default_last_cons {B} (l : list B) :
  forall d i, default d (last (i :: l)) = default i (last l).
Proof.
  induction l as [|a l IH]; intros d i; [reflexivity|].
  change (last (i :: a :: l)) with (last (a :: l)).
  rewrite (IH d a), (IH i a). reflexivity.
Qed.

(** After a run of the loop the last window number is the one of the last
    window seen. *)
Lemma for_each_last_number (l : list (array2 A * (Z * Z))) :
  forall st st',
    for_each loop_body st l = ok st' ->
    i_last_supercrop st' = default (i_last_supercrop st) (last (numbers l)).
Proof.
  induction l as [|[w [i s]] l IH]; intros st st' H; simpl in H.
  - injection H as <-. reflexivity.
  - destruct (new_trial_check st i) as [e|st1]; simpl in H; [discriminate|].
    rewrite (IH _ _ H). cbn [i_last_supercrop numbers map fst snd].
    symmetry. apply default_last_cons.
Qed.

(** A window whose number is neither the successor of the previous one
    nor 0 makes its iteration raise. *)
Lemma loop_body_bad_number st w (i s : Z) :
  i <> (i_last_supercrop st + 1)%Z -> i <> 0%Z ->
  loop_body st (w, (i, s)) = raise (AssertionError start_msg).
Proof.
  intros H1 H0. unfold loop_body, new_trial_check.
  apply Z.eqb_neq in H1, H0. rewrite H1, H0. reflexivity.
Qed.

End StepFacts.

Section BadNumber.
Context {A : Type}.

Lemma loop_body_number (st st' : loop_state A) w (i s : Z) :
  loop_body st (w, (i, s)) = ok st' -> i_last_supercrop st' = i.
Proof.
  unfold loop_body. destruct (new_trial_check st i); simpl; [discriminate|].
  intros [= <-]. reflexivity.
Qed.

(** The loop stops with an error at the latest at the first window whose
    number neither continues the trial nor is 0; when the windows before
    it went through, the error is the assertion of that window. *)
Lemma loop_bad_number (pre : list Z) (i : Z) (post : list Z) :
  forall (l : list (array2 A * (Z * Z))) (st : loop_state A),
    numbers l = pre ++ i :: post ->
    i <> (default (i_last_supercrop st) (last pre) + 1)%Z -> i <> 0%Z ->
    exists e,
      for_each loop_body st l = raise e
      /\ (forall st1, for_each loop_body st (take (length pre) l) = ok st1 ->
          e = AssertionError start_msg).
Proof.
  induction pre as [|j pre IH]; intros [|[w [k s]] l] st Hn H1 H0;
    try discriminate; simpl in Hn; injection Hn as -> Hn.
  - exists (AssertionError start_msg). simpl in H1.
    cbn [for_each]. rewrite (loop_body_bad_number st w i s H1 H0).
    split; reflexivity.
  - cbn [for_each length take].
    destruct (loop_body st (w, (j, s))) as [e|st'] eqn:Hb.
    + exists e. split; [reflexivity|]. intros st1; discriminate.
    + rewrite !rbind_ok. apply IH; [exact Hn| |exact H0].
      rewrite (loop_body_number _ _ _ _ _ Hb).
      rewrite default_last_cons in H1. exact H1.
Qed.

End BadNumber.

(** ** Claims on the reassembler *)

Local Open Scope Z_scope.

(** C2 (the code departs from the claim at [needed = 0]).  The second
    window of a trial stops where the first one did, so [needed = 0] and
    the claim asks for its last 0 columns; the iteration appends the whole
    window [[4,5,6]] to the accumulator, and the trial comes out as
    [[1,2,3,4,5,6]]. *)
Theorem zero_needed_keeps_whole_window :
  loop_body (LoopState [] [[[1; 2; 3]]] (Some 3) 0) ([[4; 5; 6]], (1, 3))
  = ok (LoopState [] [[[1; 2; 3]]; [[4; 5; 6]]] (Some 3) 1)
  /\ last_columns 0%nat [[4; 5; 6]] = [[]]
  /\ trial_preds_from_supercrop_preds
       [[[1; 2; 3]]; [[4; 5; 6]]] [0; 1]%Z [3; 3]%Z
     = ok [[[1; 2; 3; 4; 5; 6]]].
Proof. repeat split. Qed.

(** C6.  The reassembler raises, and returns nothing, (1) when the three
    input sequences do not have the same length: the assertion error of
    the first two statements; (2) when some window's number is neither
    the successor of the previous window's number (-1 before the first
    window) nor 0: the loop stops there, and when the windows before it
    went through the error is the assertion "supercrop numbers in new
    trial should start from 0". *)
Theorem reassembler_contract_violations {A} (preds : list (array2 A))
    (idx stops : list Z) :
  (length preds <> length idx \/ length idx <> length stops ->
   trial_preds_from_supercrop_preds preds idx stops
   = raise (AssertionError None))
  /\ (forall pre i post,
        idx = pre ++ i :: post ->
        i <> (default (-1)%Z (last pre) + 1)%Z -> i <> 0%Z ->
        exists e,
          trial_preds_from_supercrop_preds preds idx stops = raise e
          /\ (length preds = length idx -> length stops = length idx ->
              forall st,
                for_each loop_body loop_init
                  (take (length pre) (zip preds (zip idx stops))) = ok st ->
                e = AssertionError start_msg)).
Proof.
  split.
  - intros H. unfold trial_preds_from_supercrop_preds.
    destruct (length preds =? length idx)%nat eqn:E1; [|reflexivity].
    destruct (length idx =? length stops)%nat eqn:E2; [|reflexivity].
    apply Nat.eqb_eq in E1, E2. destruct H; congruence.
  - intros pre i post Hidx H1 H0. unfold trial_preds_from_supercrop_preds.
    destruct (length preds =? length idx)%nat eqn:E1;
      [|eexists; split; [reflexivity|]; apply Nat.eqb_neq in E1; congruence].
    destruct (length idx =? length stops)%nat eqn:E2;
      [|eexists; split; [reflexivity|]; apply Nat.eqb_neq in E2; congruence].
    apply Nat.eqb_eq in E1, E2. simpl.
    destruct (loop_bad_number pre i post (zip preds (zip idx stops))
                loop_init) as (e & He & Hfirst).
    + rewrite numbers_zip by congruence. exact Hidx.
    + exact H1.
    + exact H0.
    + exists e. rewrite He. split; [reflexivity|].
      intros _ _ st Hst. exact (Hfirst st Hst).
Qed.

Lemma reassembler_contract_violations_witness :
  trial_preds_from_supercrop_preds [[[1]]; [[2]]]%Z [0]%Z [1; 2]%Z
  = raise (AssertionError None)
  /\ trial_preds_from_supercrop_preds [[[1]]; [[2]]]%Z [0; 2]%Z [1; 2]%Z
     = raise (AssertionError start_msg).
Proof.
  split.
  - apply (proj1 (reassembler_contract_violations
                    [[[1]]; [[2]]]%Z [0]%Z [1; 2]%Z)).
    left. simpl. lia.
  - destruct (proj2 (reassembler_contract_violations
                       [[[1]]; [[2]]]%Z [0; 2]%Z [1; 2]%Z)
                [0%Z] 2%Z [] eq_refl ltac:(simpl; lia) ltac:(lia))
      as (e & He & Hfirst).
    rewrite He. f_equal. exact (Hfirst eq_refl eq_refl _ eq_refl).
Defined.

(** On a well-formed input whose windows have the same number of rows
    the reassembler returns, with one array per trial of the input. *)
Lemma reassembler_returns {A} (n_classes : nat)
    (preds : list (array2 A)) (idx stops : list Z) :
  well_formed idx = true ->
  length preds = length idx -> length stops = length idx ->
  Forall (fun w => length w = n_classes) preds ->
  exists out,
    trial_preds_from_supercrop_preds preds idx stops = ok out
    /\ all_ok (map trial_pred (split_trials (zip preds (zip idx stops))))
       = ok out.
Proof.
  intros Hwf Hp Hs Hrows.
  rewrite reassembler_by_trials by assumption.
  set (l := zip preds (zip idx stops)).
  assert (Hn : numbers l = idx) by (apply numbers_zip; assumption).
  assert (Hwf' : well_formed (numbers l) = true) by (rewrite Hn; exact Hwf).
  destruct (split_trials_windows l Hwf') as (Hw & Hne & _).
  assert (Hr : Forall (Forall (fun ws => length (fst ws) = n_classes))
                 (split_trials l)).
  { apply (rows_of_windows (fun a => length a = n_classes)).
    rewrite Hw. subst l.
    apply (rows_of_zip (fun a => length a = n_classes)). exact Hrows. }
  destruct (all_ok_total trial_pred (split_trials l)) as [out Hout].
  { rewrite Forall_forall in Hne, Hr |- *. intros t Ht.
    apply (trial_pred_total n_classes); [apply Hne|apply Hr]; exact Ht. }
  exists out. split; exact Hout.
Qed.

Lemma count_zero_split {A} (preds : list (array2 A)) (idx stops : list Z) :
  well_formed idx = true ->
  length preds = length idx -> length stops = length idx ->
  length (split_trials (zip preds (zip idx stops)))
  = count_occ Z.eq_dec idx 0%Z.
Proof.
  intros Hwf Hp Hs.
  set (l := zip preds (zip idx stops)).
  assert (Hn : numbers l = idx) by (apply numbers_zip; assumption).
  assert (Hwf' : well_formed (numbers l) = true) by (rewrite Hn; exact Hwf).
  destruct (split_trials_windows l Hwf') as (Hw & Hne & _).
  rewrite <- (count_zero_windows _ Hne), Hw, Hn. reflexivity.
Qed.

(** C7.  On a well-formed input (window numbers that start at 0 and go
    on by 1 or back to 0, as many predictions and stops as numbers) the
    arrays the reassembler returns are as many as there are 0s among the
    window numbers, and the k-th array is the prediction of the k-th trial
    of the input; it does return when the windows have the same number of
    class rows, as [np.concatenate] needs them.  The stops play no part. *)
Theorem trial_count_and_order {A} (preds : list (array2 A))
    (idx stops : list Z) :
  well_formed idx = true ->
  length preds = length idx -> length stops = length idx ->
  (forall out,
      trial_preds_from_supercrop_preds preds idx stops = ok out ->
      length out = count_occ Z.eq_dec idx 0%Z
      /\ Forall2 (fun o t => trial_pred t = ok o) out
           (split_trials (zip preds (zip idx stops))))
  /\ (forall n_classes : nat,
        Forall (fun w => length w = n_classes) preds ->
        exists out, trial_preds_from_supercrop_preds preds idx stops = ok out).
Proof.
  intros Hwf Hp Hs. split.
  - intros out Hout. rewrite reassembler_by_trials in Hout by assumption.
    split.
    + rewrite (all_ok_length _ _ Hout), length_map.
      apply count_zero_split; assumption.
    + apply all_ok_Forall2. exact Hout.
  - intros n_classes Hrows.
    destruct (reassembler_returns n_classes preds idx stops Hwf Hp Hs Hrows)
      as (out & Hout & _).
    exists out. exact Hout.
Qed.

Lemma trial_count_and_order_witness :
  trial_preds_from_supercrop_preds
    [[[1; 2; 3]]; [[4; 5; 6]]; [[7; 8; 9]]]%Z [0; 1; 0]%Z [3; 5; 3]%Z
  = ok [[[1; 2; 3; 5; 6]]; [[7; 8; 9]]]%Z
  /\ length [[[1; 2; 3; 5; 6]]; [[7; 8; 9]]]%Z
     = count_occ Z.eq_dec [0; 1; 0]%Z 0%Z
  /\ Forall2 (fun o t => trial_pred t = ok o)
       [[[1; 2; 3; 5; 6]]; [[7; 8; 9]]]%Z
       (split_trials
          (zip [[[1; 2; 3]]; [[4; 5; 6]]; [[7; 8; 9]]]%Z
             (zip [0; 1; 0]%Z [3; 5; 3]%Z)))
  /\ exists out,
       trial_preds_from_supercrop_preds
         [[[1; 2; 3]]; [[4; 5; 6]]; [[7; 8; 9]]]%Z [0; 1; 0]%Z [3; 5; 3]%Z
       = ok out.
Proof.
  pose proof (trial_count_and_order
                [[[1; 2; 3]]; [[4; 5; 6]]; [[7; 8; 9]]]%Z
                [0; 1; 0]%Z [3; 5; 3]%Z eq_refl eq_refl eq_refl)
    as [Hout Hreturns].
  split; [reflexivity|].
  destruct (Hout _ eq_refl) as [Hlen Hord].
  split; [exact Hlen|]. split; [exact Hord|].
  apply (Hreturns 1%nat). repeat constructor.
Defined.

(** C8.  The end-to-end example: two windows [[1,2,3]] and [[4,5,6]] of
    one class row, numbers [0,1], stops [3,5]: one trial of 5 time steps,
    [[1,2,3,5,6]]. *)
Theorem end_to_end_example :
  trial_preds_from_supercrop_preds
    [[[1; 2; 3]]; [[4; 5; 6]]]%Z [0; 1]%Z [3; 5]%Z
  = ok [[[1; 2; 3; 5; 6]]]%Z.
Proof. reflexivity. Qed.

(** C9.  On a well-formed input whose windows never overlap inside a
    trial (the stop of each later window of a trial is the stop of the
    window before it plus the length of its rows), the reassembler is the
    concatenation along the time axis of the windows of each trial, as
    they are, trial by trial; it returns when the windows have the same
    number of class rows. *)
Theorem no_overlap_is_concatenation {A} (preds : list (array2 A))
    (idx stops : list Z) :
  well_formed idx = true ->
  length preds = length idx -> length stops = length idx ->
  forallb no_overlap (split_trials (zip preds (zip idx stops))) = true ->
  trial_preds_from_supercrop_preds preds idx stops
  = all_ok (map (fun t => concatenate_axis1 (map fst t))
              (split_trials (zip preds (zip idx stops))))
  /\ (forall n_classes : nat,
        Forall (fun w => length w = n_classes) preds ->
        exists out, trial_preds_from_supercrop_preds preds idx stops = ok out).
Proof.
  intros Hwf Hp Hs Hno. split.
  - rewrite reassembler_by_trials by assumption. f_equal.
    apply map_ext_in. intros t Ht. apply trial_pred_no_overlap.
    rewrite forallb_forall in Hno. apply Hno. exact Ht.
  - intros n_classes Hrows.
    destruct (reassembler_returns n_classes preds idx stops Hwf Hp Hs Hrows)
      as (out & Hout & _).
    exists out. exact Hout.
Qed.

Lemma no_overlap_is_concatenation_witness :
  trial_preds_from_supercrop_preds
    [[[1; 2]; [3; 4]]; [[5; 6]; [7; 8]]; [[9; 10]; [11; 12]]]%Z
    [0; 1; 0]%Z [2; 4; 2]%Z
  = ok [[[1; 2; 5; 6]; [3; 4; 7; 8]]; [[9; 10]; [11; 12]]]%Z
  /\ exists out,
       trial_preds_from_supercrop_preds
         [[[1; 2]; [3; 4]]; [[5; 6]; [7; 8]]; [[9; 10]; [11; 12]]]%Z
         [0; 1; 0]%Z [2; 4; 2]%Z
       = ok out.
Proof.
  pose proof (no_overlap_is_concatenation
                [[[1; 2]; [3; 4]]; [[5; 6]; [7; 8]]; [[9; 10]; [11; 12]]]%Z
                [0; 1; 0]%Z [2; 4; 2]%Z eq_refl eq_refl eq_refl eq_refl)
    as [Heq Hreturns].
  split.
  - rewrite Heq. reflexivity.
  - apply (Hreturns 2%nat). repeat constructor.
Defined.

(** ** The epoch prediction cache *)

Import Scoring.

Section CacheFacts.
Context {F dataset batch_X : Type} (cls : @net_class F dataset batch_X).
Implicit Types (w : @world F dataset) (g : generator) (c : @call dataset)
  (y_preds rem : list (@tensor F)).

Lemma set_iterators_id w : set_iterators (iterators w) w = w.
Proof. destruct w; reflexivity. Qed.

Lemma only_iterators_differ_refl w : only_iterators_differ w w.
Proof. repeat split. Qed.

Lemma only_iterators_differ_trans w1 w2 w3 :
  only_iterators_differ w1 w2 -> only_iterators_differ w2 w3 ->
  only_iterators_differ w1 w3.
Proof.
  intros (?&?&?&?&?) (?&?&?&?&?). repeat split; congruence.
Qed.

Lemma only_iterators_differ_set its w :
  only_iterators_differ w (set_iterators its w).
Proof. repeat split. Qed.

Lemma mbind_ok {R S} (m : M R) (f : R -> M S) w r w' :
  m w = (ok r, w') -> mbind m f w = f r w'.
Proof. intros H. unfold mbind. rewrite H. reflexivity. Qed.

Lemma mbind_raise {R S} (m : M R) (f : R -> M S) w e w' :
  m w = (raise e, w') -> mbind m f w = (raise e, w').
Proof. intros H. unfold mbind. rewrite H. reflexivity. Qed.

(** *** Generators of one scope *)

Lemma generator_next_some g w yp rem :
  iterators w !! gen_y_preds g = Some (yp :: rem) ->
  generator_next g w
  = (ok (Some (to (gen_device g) yp)),
     set_iterators (<[gen_y_preds g := rem]> (iterators w)) w).
Proof. intros H. unfold generator_next. rewrite H. reflexivity. Qed.

Lemma generator_next_exhausted g w :
  iterators w !! gen_y_preds g = Some [] ->
  generator_next g w = (ok None, w).
Proof. intros H. unfold generator_next. rewrite H. reflexivity. Qed.

Lemma lookup_set_iterators g w rem rem' :
  iterators w !! gen_y_preds g = Some rem ->
  iterators (set_iterators (<[gen_y_preds g := rem']> (iterators w)) w)
    !! gen_y_preds g = Some rem'.
Proof.
  intros H. simpl. apply list_lookup_insert_eq.
  exact (lookup_lt_Some _ _ _ H).
Qed.

Lemma set_iterators_twice g w rem rem' :
  set_iterators
    (<[gen_y_preds g := rem]>
       (iterators (set_iterators (<[gen_y_preds g := rem']> (iterators w)) w)))
    (set_iterators (<[gen_y_preds g := rem']> (iterators w)) w)
  = set_iterators (<[gen_y_preds g := rem]> (iterators w)) w.
Proof. unfold set_iterators. simpl. rewrite list_insert_insert_eq. reflexivity. Qed.

(** [n] rounds of [next] yield the next [n] predictions of the scope, in
    their order, on the device of the generator. *)
Lemma generator_take_spec g n :
  forall w rem,
    iterators w !! gen_y_preds g = Some rem ->
    generator_take n g w
    = (ok (map (to (gen_device g)) (take n rem)),
       set_iterators (<[gen_y_preds g := drop n rem]> (iterators w)) w).
Proof.
  induction n as [|n IH]; intros w rem H.
  - cbn [generator_take]. unfold mret. rewrite take_0, drop_0.
    rewrite (list_insert_id _ _ _ H), set_iterators_id.
    reflexivity.
  - cbn [generator_take]. destruct rem as [|yp rem].
    + rewrite (mbind_ok _ _ _ _ _ (generator_next_exhausted _ _ H)).
      rewrite take_nil, drop_nil. unfold mret.
      rewrite (list_insert_id _ _ _ H), set_iterators_id. reflexivity.
    + rewrite (mbind_ok _ _ _ _ _ (generator_next_some _ _ _ _ H)).
      erewrite mbind_ok
        by (apply (IH _ rem); eapply lookup_set_iterators; exact H).
      unfold mret. rewrite set_iterators_twice. reflexivity.
Qed.

(** [list(g)] is [next(g)] until [StopIteration]. *)
Lemma generator_list_take g w rem :
  iterators w !! gen_y_preds g = Some rem ->
  generator_list g w = generator_take (length rem) g w.
Proof.
  intros H. rewrite (generator_take_spec _ _ _ _ H).
  unfold generator_list. rewrite H, firstn_all, drop_all. reflexivity.
Qed.

Lemma generator_list_spec g w rem :
  iterators w !! gen_y_preds g = Some rem ->
  generator_list g w
  = (ok (map (to (gen_device g)) rem),
     set_iterators (<[gen_y_preds g := []]> (iterators w)) w).
Proof. intros H. unfold generator_list. rewrite H. reflexivity. Qed.

(** Generators of one scope, whatever their arguments, draw from the one
    sequence: the k-th [next] yields the k-th remaining prediction. *)
Lemma next_each_spec (it : nat) (gs : list generator) :
  forall w rem,
    Forall (fun g => gen_y_preds g = it) gs ->
    iterators w !! it = Some rem ->
    next_each gs w
    = (ok (imap (fun k g => to (gen_device g) <$> rem !! k) gs),
       set_iterators (<[it := drop (length gs) rem]> (iterators w)) w).
Proof.
  induction gs as [|g gs IH]; intros w rem Hgs H.
  - cbn [next_each imap length]. unfold mret.
    rewrite drop_0, (list_insert_id _ _ _ H), set_iterators_id.
    reflexivity.
  - inversion Hgs as [|? ? Hg Hgs']; subst. cbn [next_each imap].
    destruct rem as [|yp rem].
    + rewrite (mbind_ok _ _ _ _ _ (generator_next_exhausted _ _ H)).
      rewrite (mbind_ok _ _ _ _ _ (IH w [] Hgs' H)). unfold mret.
      rewrite !drop_nil. reflexivity.
    + rewrite (mbind_ok _ _ _ _ _ (generator_next_some _ _ _ _ H)).
      erewrite mbind_ok
        by (apply (IH _ rem Hgs'); eapply lookup_set_iterators; exact H).
      unfold mret. rewrite set_iterators_twice. reflexivity.
Qed.

(** *** Inference leaves everything but the iterators alone *)

Lemma call_forward_iter_frame c w :
  only_iterators_differ w (call_forward_iter cls c w).2.
Proof.
  unfold call_forward_iter.
  destruct (net_dict w !! "forward_iter") as [[dev it|v]|];
    try apply only_iterators_differ_refl.
  unfold generator_list. destruct (iterators w !! _);
    [apply only_iterators_differ_set|apply only_iterators_differ_refl].
Qed.

Lemma run_frame {R} (p : prog R) :
  forall w, only_iterators_differ w (run cls p w).2.
Proof.
  induction p as [r|e|c k IH]; intros w; simpl;
    try apply only_iterators_differ_refl.
  unfold mbind. pose proof (call_forward_iter_frame c w) as Hc.
  destruct (call_forward_iter cls c w) as [[e|ys] w1]; simpl in *;
    [exact Hc|].
  eapply only_iterators_differ_trans; [exact Hc|apply IH].
Qed.

End CacheFacts.

Section ScopeFacts.
Context {F dataset batch_X : Type} (cls : @net_class F dataset batch_X).
Implicit Types (w : @world F dataset) (c : @call dataset)
  (y_preds : list (@tensor F)).

Lemma override_forward_iter_spec y_preds w :
  override_forward_iter y_preds w
  = (ok tt,
     World
       (<["forward_iter" :=
            CachedForwardIter (net_device w) (length (iterators w))]>
          (net_dict w))
       (net_device w) (iterators w ++ [y_preds]) (history w) (callbacks w)
       (log w ++ [SetForwardIter])).
Proof. reflexivity. Qed.

Lemma inside_scope_forward_iter y_preds w :
  net_dict (inside_scope y_preds w) !! "forward_iter"
  = Some (CachedForwardIter (net_device w) (length (iterators w))).
Proof.
  unfold inside_scope. rewrite override_forward_iter_spec. simpl.
  apply lookup_insert_eq.
Qed.

Lemma inside_scope_iterator y_preds w :
  iterators (inside_scope y_preds w) !! length (iterators w) = Some y_preds.
Proof.
  unfold inside_scope. rewrite override_forward_iter_spec. simpl.
  apply list_lookup_middle. reflexivity.
Qed.

(** Inside the scope [net.forward_iter] is [cached_forward_iter]. *)
Lemma call_forward_iter_inside y_preds w c :
  call_forward_iter cls c (inside_scope y_preds w)
  = generator_list
      (cached_forward_iter (net_device w) (length (iterators w)) c)
      (inside_scope y_preds w).
Proof.
  unfold call_forward_iter. rewrite inside_scope_forward_iter. reflexivity.
Qed.

(** Without an entry in the instance dict [net.forward_iter] is the
    method of the class. *)
Lemma call_forward_iter_class w c :
  net_dict w !! "forward_iter" = None ->
  call_forward_iter cls c w = (forward_iter cls c, w).
Proof. intros H. unfold call_forward_iter. rewrite H. reflexivity. Qed.

(** The [with] block with caching on: the outcome is the one of the body
    run inside the scope, and the [finally] clause has deleted the entry
    of the instance dict, once. *)
Lemma cache_scope_spec {R} y_preds (body : M R) w :
  (forall w0, only_iterators_differ w0 (body w0).2) ->
  _cache_net_forward_iter true y_preds body w
  = ((body (inside_scope y_preds w)).1,
     World (delete "forward_iter" (net_dict w)) (net_device w)
       (iterators (body (inside_scope y_preds w)).2) (history w)
       (callbacks w) (log w ++ [SetForwardIter; DelForwardIter])).
Proof.
  intros Hframe. unfold _cache_net_forward_iter. cbn [negb].
  rewrite (mbind_ok _ _ _ _ _ (override_forward_iter_spec y_preds w)).
  unfold try_finally.
  change (World _ _ _ _ _ _) with (inside_scope y_preds w) at 1.
  pose proof (Hframe (inside_scope y_preds w)) as (Hd & Hdev & Hh & Hc & Hl).
  pose proof (inside_scope_forward_iter y_preds w) as Hfi.
  destruct (body (inside_scope y_preds w)) as [r w1]. simpl in *.
  unfold del_forward_iter. rewrite Hd, Hfi.
  unfold mbind, observe, modify, set_net_dict. simpl.
  rewrite Hd, Hdev, Hh, Hc, Hl.
  rewrite delete_insert_eq, <- app_assoc. reflexivity.
Qed.

End ScopeFacts.

(** ** Claims on the cache *)

Section CacheClaims.
Context {F dataset batch_X : Type} (cls : @net_class F dataset batch_X).
Implicit Types (w : @world F dataset) (c : @call dataset)
  (y_preds : list (@tensor F)).

Lemma occurrences_app (ev : event) (l1 l2 : list event) :
  occurrences ev (l1 ++ l2) = (occurrences ev l1 + occurrences ev l2)%nat.
Proof. unfold occurrences. rewrite List.filter_app, length_app. reflexivity. Qed.

Lemma data_to (dev : device) y_preds :
  map data (map (to dev) y_preds) = map data y_preds.
Proof. rewrite map_map. reflexivity. Qed.

(** C3, as the code has it.  With caching off the [with] block is its
    body: the net it gets is the net as it was.  With caching on, inside
    the block, one run of [net.forward_iter(...)] yields the supplied
    predictions in their order (each moved to the device of the call, its
    data unchanged), and so do [n] rounds of [next] for the first [n] of
    them.  After the block, whether the body returned or raised, the entry
    [forward_iter] of the instance dict is gone, the rest of the dict is as
    it was, and [net.forward_iter] is the method of the class; the entry
    was deleted once.  For a net whose instance dict held no
    [forward_iter] when the block was entered this is the net as it was:
    the dict is the one before the block and [net.forward_iter(...)] gives
    what it gave before. *)
Theorem cache_transparency y_preds w :
  (forall R (body : M R),
      _cache_net_forward_iter false y_preds body w = body w)
  /\ (forall c,
        (call_forward_iter cls c (inside_scope y_preds w)).1
        = ok (map (to (default (net_device w) (device_kw c))) y_preds))
  /\ (forall c n,
        (generator_take n
           (cached_forward_iter (net_device w) (length (iterators w)) c)
           (inside_scope y_preds w)).1
        = ok (map (to (default (net_device w) (device_kw c)))
                (take n y_preds)))
  /\ (forall dev, map data (map (to dev) y_preds) = map data y_preds)
  /\ (forall R (p : prog R),
        let out := _cache_net_forward_iter true y_preds (run cls p) w in
        out.1 = (run cls p (inside_scope y_preds w)).1
        /\ net_dict out.2 = delete "forward_iter" (net_dict w)
        /\ net_dict out.2 !! "forward_iter" = None
        /\ (forall c, call_forward_iter cls c out.2 = (forward_iter cls c, out.2))
        /\ occurrences DelForwardIter (log out.2)
           = S (occurrences DelForwardIter (log w))
        /\ (net_dict w !! "forward_iter" = None ->
            net_dict out.2 = net_dict w
            /\ forall c, (call_forward_iter cls c out.2).1
                         = (call_forward_iter cls c w).1)).
Proof.
  split; [reflexivity|]. split; [|split; [|split]].
  - intros c. rewrite call_forward_iter_inside.
    erewrite generator_list_spec by apply inside_scope_iterator.
    reflexivity.
  - intros c n.
    erewrite generator_take_spec by apply inside_scope_iterator.
    reflexivity.
  - intros dev. apply data_to.
  - intros R p out. subst out.
    rewrite (cache_scope_spec y_preds (run cls p) w (run_frame cls p)).
    cbn [fst snd net_dict log].
    assert (Hnone : delete "forward_iter" (net_dict w) !! "forward_iter"
                    = None) by apply lookup_delete_eq.
    split; [reflexivity|]. split; [reflexivity|]. split; [exact Hnone|].
    split; [|split].
    + intros c. apply call_forward_iter_class. exact Hnone.
    + rewrite occurrences_app.
      change (occurrences DelForwardIter [SetForwardIter; DelForwardIter])
        with 1%nat.
      lia.
    + intros Hfresh. split; [apply delete_id; exact Hfresh|].
      intros c.
      rewrite (call_forward_iter_class cls (World _ _ _ _ _ _) c Hnone).
      rewrite (call_forward_iter_class cls w c Hfresh).
      reflexivity.
Qed.

(** C10, as the code has it.  [cached_forward_iter] does not look at its
    positional arguments nor at its keyword arguments other than [device];
    the generators of one scope draw from the one sequence of the scope:
    the k-th [next] of the scope, on whichever generator, yields the k-th
    supplied prediction moved to the device of that generator, and nothing
    once the sequence is used up; after one full run a further run yields
    nothing; runs with different arguments yield the same data. *)
Theorem cached_forward_iter_arguments y_preds w :
  (forall default_device it (args1 args2 : list (@value dataset))
          kwargs1 kwargs2 dev,
      cached_forward_iter default_device it (Call args1 dev kwargs1)
      = cached_forward_iter default_device it (Call args2 dev kwargs2))
  /\ (forall cs : list (@call dataset),
        (next_each
           (map (cached_forward_iter (net_device w) (length (iterators w))) cs)
           (inside_scope y_preds w)).1
        = ok (imap (fun k c =>
                      to (default (net_device w) (device_kw c))
                        <$> y_preds !! k) cs))
  /\ (forall c c',
        (call_forward_iter cls c'
           (call_forward_iter cls c (inside_scope y_preds w)).2).1
        = ok [])
  /\ (forall c c',
      exists l l',
        (call_forward_iter cls c (inside_scope y_preds w)).1 = ok l
        /\ (call_forward_iter cls c' (inside_scope y_preds w)).1 = ok l'
        /\ map data l = map data y_preds
        /\ map data l' = map data y_preds).
Proof.
  split; [reflexivity|]. split; [|split].
  - intros cs.
    erewrite (next_each_spec (length (iterators w)));
      [|apply Forall_forall; intros g Hg;
        apply list_elem_of_fmap in Hg as (c & -> & _); reflexivity
       |apply inside_scope_iterator].
    cbn [fst]. f_equal. rewrite imap_fmap. reflexivity.
  - intros c c'. rewrite call_forward_iter_inside.
    erewrite generator_list_spec by apply inside_scope_iterator.
    cbn [snd]. unfold call_forward_iter. cbn [net_dict set_iterators].
    rewrite inside_scope_forward_iter.
    rewrite (generator_list_spec _ _ []); [reflexivity|].
    cbn [iterators cached_forward_iter gen_y_preds].
    apply list_lookup_insert_eq.
    exact (lookup_lt_Some _ _ _ (inside_scope_iterator y_preds w)).
  - intros c c'. rewrite !call_forward_iter_inside.
    erewrite !generator_list_spec by apply inside_scope_iterator.
    do 2 eexists. repeat split; apply data_to.
Qed.

End CacheClaims.

(** C3, as the claim has it: the capability the net had before the block
    is not restored for every net.  A net that is inside a caching block
    already yields the predictions of that block; after a second block,
    entered and left inside the first, [net.forward_iter] runs the
    inference of the class. *)
Lemma forward_iter_of_outer_scope_not_restored :
  let outer := [Tensor (Windows [[[1; 2]]]%Z) "cpu"] in
  let w : @world Z nat := inside_scope outer (Fixture.net_with []) in
  let c : @call nat := Call [VDataset 0%nat] None [] in
  let out := _cache_net_forward_iter true [] (run Fixture.cls (Return 0%Z)) w in
  out.1 = ok 0%Z
  /\ (call_forward_iter Fixture.cls c w).1 = ok outer
  /\ (call_forward_iter Fixture.cls c out.2).1 = forward_iter Fixture.cls c
  /\ (call_forward_iter Fixture.cls c out.2).1 <> (call_forward_iter Fixture.cls c w).1.
Proof.
  vm_compute. repeat split. discriminate.
Qed.

Lemma cache_transparency_witness :
  let w : @world Z nat := Fixture.net_with [] in
  let y_preds := [Tensor (Matrix [[1]]%Z) "cpu"] in
  let p := Fixture.count_batches 0%nat (LabelArray []) in
  let out := _cache_net_forward_iter true y_preds (run Fixture.cls p) w in
  net_dict w !! "forward_iter" = None
  /\ net_dict out.2 = net_dict w
  /\ forall c, (call_forward_iter Fixture.cls c out.2).1
               = (call_forward_iter Fixture.cls c w).1.
Proof.
  intros w y_preds p out.
  assert (Hfresh : net_dict w !! "forward_iter" = None) by reflexivity.
  split; [exact Hfresh|].
  destruct (cache_transparency Fixture.cls y_preds w) as (_ & _ & _ & _ & H).
  destruct (H _ p) as (_ & _ & _ & _ & _ & Hrestored).
  exact (Hrestored Hfresh).
Defined.

(** C10, as the claim has it: the yielded predictions are not the same
    for any two argument lists.  Two calls that differ in [device] yield
    tensors on different devices. *)
Lemma cached_forward_iter_device_matters :
  let w : @world Z nat :=
    World ∅ "cpu" [[Tensor (Windows [[[1; 2]]]) "cpu"]] [] [] [] in
  let c1 : @call nat := Call [VDataset 0%nat] (Some "cpu"%string) [] in
  let c2 : @call nat := Call [VDataset 0%nat] (Some "cuda"%string) [] in
  (generator_list (cached_forward_iter "cpu" 0 c1) w).1
  <> (generator_list (cached_forward_iter "cpu" 0 c2) w).1.
Proof. simpl. discriminate. Qed.

(** ** The epoch-end hooks *)

Section HookFacts.
Context {F dataset batch_X : Type} (mean : list F -> F)
  (cls : @net_class F dataset batch_X).
Implicit Types (w : @world F dataset) (self cb : @callback F dataset)
  (g : group).

Lemma group_eqb_eq g1 g2 : group_eqb g1 g2 = true <-> g1 = g2.
Proof.
  destruct g1 as [a|], g2 as [b|]; simpl; split; try congruence;
    try discriminate.
  - intros H. apply Bool.eqb_prop in H. congruence.
  - intros [= ->]. apply Bool.eqb_reflx.
Qed.

Lemma group_eqb_refl g : group_eqb g g = true.
Proof. apply group_eqb_eq. reflexivity. Qed.

Lemma in_group_eq g cb : in_group g cb = true <-> group_of cb = Some g.
Proof.
  unfold in_group. destruct (group_of cb) as [g'|].
  - rewrite group_eqb_eq. split; congruence.
  - split; discriminate.
Qed.

Lemma is_cropped_on_in_group self cb :
  is_cropped_on (on_train self) cb
  = in_group (CroppedGroup (on_train self)) cb.
Proof.
  unfold is_cropped_on, in_group, group_of.
  destruct (cb_kind cb); simpl; try reflexivity.
  destruct (on_train cb), (on_train self); reflexivity.
Qed.

Lemma is_post_epoch_in_group cb :
  is_post_epoch cb = in_group PostEpochGroup cb.
Proof.
  unfold is_post_epoch, in_group, group_of.
  destruct (cb_kind cb); reflexivity.
Qed.

Lemma computations_observe_compute g g' w :
  computations g' (observe (Compute g) w).2
  = (computations g' w + if group_eqb g' g then 1 else 0)%nat.
Proof.
  unfold computations, observe, modify. simpl.
  rewrite occurrences_app. f_equal. unfold occurrences. simpl.
  destruct (group_eqb g' g); reflexivity.
Qed.

(** The scoring block with caching on: the outcome of the scoring
    function inside the scope decides between the call of
    [_record_score] and the exception; the override is set and deleted in
    both cases. *)
Lemma score_and_record_spec self (ds : dataset) w :
  let inner :=
    run cls (scoring self ds (y_trues_ self))
      (inside_scope (y_preds_ self) w) in
  let after :=
    World (delete "forward_iter" (net_dict w)) (net_device w)
      (iterators inner.2) (history w) (callbacks w)
      (log w ++ [SetForwardIter; DelForwardIter]) in
  score_and_record cls self true ds w
  = match inner.1 with
    | inl e => (raise e, after)
    | inr s =>
        (ok tt, set_history (history_record cls self s (history w)) after)
    end.
Proof.
  intros inner after. unfold score_and_record, mbind.
  rewrite (cache_scope_spec _ _ _ (run_frame cls _)).
  fold inner. fold after. destruct (inner.1); reflexivity.
Qed.

Lemma score_and_record_quiet self (ds : dataset) w :
  callbacks (score_and_record cls self true ds w).2 = callbacks w
  /\ forall g,
       computations g (score_and_record cls self true ds w).2
       = computations g w.
Proof.
  rewrite score_and_record_spec.
  destruct (run cls _ _).1; simpl; (split; [reflexivity|]); intros g;
    unfold computations; simpl; rewrite occurrences_app;
    unfold occurrences; simpl; lia.
Qed.

End HookFacts.

Section HookEffects.
Context {F dataset batch_X : Type} (mean : list F -> F)
  (cls : @net_class F dataset batch_X).
Implicit Types (w : @world F dataset) (self cb : @callback F dataset)
  (g : group).

Lemma get_callback_ok i w self w1 :
  get_callback i w = (ok self, w1) -> callbacks w !! i = Some self /\ w1 = w.
Proof.
  unfold get_callback. destruct (callbacks w !! i); [|discriminate].
  intros [= -> ->]. split; reflexivity.
Qed.

Lemma mbind_ok_inv {R S} (m : M R) (f : R -> M S) w (s : S) w' :
  mbind m f w = (ok s, w') ->
  exists r w1, m w = (ok r, w1) /\ f r w1 = (ok s, w').
Proof.
  unfold mbind. destruct (m w) as [[e|r] w1]; [discriminate|].
  intros H. exists r, w1. split; [reflexivity|exact H].
Qed.

(** The broadcast loop gives the outcome to the callbacks of the group
    and leaves the others as they are. *)
Lemma broadcast_effect g (assign : callback -> callback)
    (p : list tensor) (y : labels) (cbs : list (@callback F dataset)) :
  (forall cb, group_of (assign cb) = group_of cb) ->
  (forall cb, in_group g cb = true ->
              needs_compute (assign cb) = false
              /\ y_preds_ (assign cb) = p /\ y_trues_ (assign cb) = y) ->
  Forall2 (fun cb cb' =>
             group_of cb' = group_of cb
             /\ if in_group g cb
                then needs_compute cb' = false
                     /\ y_preds_ cb' = p /\ y_trues_ cb' = y
                else cb' = cb)
    cbs (map (fun cb => if in_group g cb then assign cb else cb) cbs).
Proof.
  intros Hg Ha. induction cbs as [|cb cbs IH]; simpl; constructor;
    [|exact IH].
  destruct (in_group g cb) eqn:E.
  - split; [apply Hg|apply Ha; exact E].
  - split; reflexivity.
Qed.

Lemma hook_effect_quiet g b w w1 w' :
  hook_effect g b w w1 ->
  callbacks w' = callbacks w1 ->
  (forall g', computations g' w' = computations g' w1) ->
  hook_effect g b w w'.
Proof.
  unfold hook_effect. intros H Hc Hn. destruct b.
  - destruct H as (Hcount & p & y & Hall). split.
    + intros g'. rewrite Hn. apply Hcount.
    + exists p, y. rewrite Hc. exact Hall.
  - destruct H as (Hcbs & Hcount). split; [congruence|].
    intros g'. rewrite Hn. apply Hcount.
Qed.

(** The first part of the hook of the trial scorer. *)
Lemma trial_results_effect i (dt : dataset) w w1 :
  trial_results mean cls i dt w = (ok tt, w1) ->
  exists self,
    callbacks w !! i = Some self
    /\ use_caching self = true
    /\ (cb_kind self = CroppedTrialEpochScoring ->
        hook_effect (CroppedGroup (on_train self)) (needs_compute self) w w1).
Proof.
  unfold trial_results. intros H.
  apply mbind_ok_inv in H as (self & w0 & Hget & H).
  apply get_callback_ok in Hget as [Hself ->].
  apply mbind_ok_inv in H as ([] & w0 & Hassert & H).
  unfold lift, py_assert in Hassert.
  destruct (use_caching self) eqn:Huc; [|discriminate].
  injection Hassert as <-.
  exists self. split; [exact Hself|]. split; [exact Huc|].
  intros Hkind. unfold needs_compute. rewrite Hkind.
  destruct (negb (crops_to_trials_computed self)).
  - unfold crops_to_trials in H.
    apply mbind_ok_inv in H as ([] & w2 & Hobs & H).
    apply mbind_ok_inv in H as ([p y] & w3 & Hres & H).
    unfold lift in Hres. injection Hres as Hres <-.
    unfold broadcast, modify in H. injection H as <-.
    assert (Hw2 : w2 = (observe (Compute (CroppedGroup (on_train self))) w).2)
      by (rewrite Hobs; reflexivity).
    unfold hook_effect. split.
    + intros g'. unfold computations at 1. cbn [log set_callbacks].
      fold (computations g' w2). rewrite Hw2.
      apply computations_observe_compute.
    + exists p, y. cbn [callbacks set_callbacks].
      replace (callbacks w2) with (callbacks w) by (rewrite Hw2; reflexivity).
      erewrite map_ext by (intros cb; rewrite is_cropped_on_in_group;
                           reflexivity).
      apply broadcast_effect.
      * intros cb. reflexivity.
      * intros cb Hin. apply in_group_eq in Hin.
        unfold needs_compute, group_of in *. simpl.
        destruct (cb_kind cb); try discriminate. repeat split.
  - injection H as <-. split; [reflexivity|]. intros g'. reflexivity.
Qed.

Lemma recompute_batch_lengths self (batches : list (batch_X * list label)) :
  forall acc acc',
    for_each (recompute_batch cls self) acc batches = ok acc' ->
    length acc.1 = length acc.2 ->
    length acc'.1 = length acc'.2.
Proof.
  induction batches as [|[bx by_] batches IH]; intros [yps yts] acc' H Hl;
    simpl in H.
  - injection H as <-. exact Hl.
  - destruct (evaluation_step cls bx) as [e|yp]; simpl in H; [discriminate|].
    apply (IH _ _ H). simpl in *. rewrite !length_app. simpl. lia.
Qed.

(** The recomputation yields at least one batch of predictions when it
    returns. *)
Lemma recomputed_nonempty self (dt : dataset) p y :
  recomputed cls self dt = ok (p, y) -> (length p =? 0)%nat = false.
Proof.
  unfold recomputed.
  destruct (for_each _ _ _) as [e|[yps yts]] eqn:Hloop; simpl;
    [discriminate|].
  apply recompute_batch_lengths in Hloop; [|reflexivity]. simpl in Hloop.
  destruct yts as [|yt yts]; simpl; [discriminate|].
  intros [= <- _]. destruct yps; [discriminate|reflexivity].
Qed.

(** The first part of the hook of the post-epoch scorer. *)
Lemma recomputed_preds_effect i (dt : dataset) w w1 :
  recomputed_preds cls i dt w = (ok tt, w1) ->
  exists self,
    callbacks w !! i = Some self
    /\ (cb_kind self = PostEpochTrainScoring ->
        hook_effect PostEpochGroup (needs_compute self) w w1).
Proof.
  unfold recomputed_preds. intros H.
  apply mbind_ok_inv in H as (self & w0 & Hget & H).
  apply get_callback_ok in Hget as [Hself ->].
  exists self. split; [exact Hself|].
  intros Hkind. unfold needs_compute. rewrite Hkind.
  destruct (length (y_preds_ self) =? 0)%nat.
  - unfold recompute in H.
    apply mbind_ok_inv in H as ([] & w2 & Hobs & H).
    apply mbind_ok_inv in H as ([p y] & w3 & Hres & H).
    unfold lift in Hres. injection Hres as Hres <-.
    unfold broadcast, modify in H. injection H as <-.
    assert (Hw2 : w2 = (observe (Compute PostEpochGroup) w).2)
      by (rewrite Hobs; reflexivity).
    unfold hook_effect. split.
    + intros g'. unfold computations at 1. cbn [log set_callbacks].
      fold (computations g' w2). rewrite Hw2.
      apply computations_observe_compute.
    + exists p, y. cbn [callbacks set_callbacks].
      replace (callbacks w2) with (callbacks w) by (rewrite Hw2; reflexivity).
      erewrite map_ext by (intros cb; rewrite is_post_epoch_in_group;
                           reflexivity).
      apply broadcast_effect.
      * intros cb. reflexivity.
      * intros cb Hin. apply in_group_eq in Hin.
        unfold needs_compute, group_of in *. simpl.
        destruct (cb_kind cb); try discriminate. repeat split.
        exact (recomputed_nonempty _ _ _ _ Hres).
  - injection H as <-. split; [reflexivity|]. intros g'. reflexivity.
Qed.

End HookEffects.

Section EventFacts.
Context {F dataset batch_X : Type} (mean : list F -> F)
  (cls : @net_class F dataset batch_X).
Implicit Types (w : @world F dataset) (self cb : @callback F dataset)
  (g : group).

Lemma score_and_record_quiet_any self (b : bool) (ds : dataset) w :
  callbacks (score_and_record cls self b ds w).2 = callbacks w
  /\ forall g,
       computations g (score_and_record cls self b ds w).2
       = computations g w.
Proof.
  destruct b; [apply score_and_record_quiet|].
  unfold score_and_record, _cache_net_forward_iter, mbind. cbn [negb].
  pose proof (run_frame cls (scoring self ds (y_trues_ self)) w)
    as (_ & _ & _ & Hc & Hl).
  destruct (run cls _ w) as [[e|s] w1]; simpl in *.
  - split; [exact Hc|]. intros g. unfold computations. rewrite Hl.
    reflexivity.
  - split; [exact Hc|]. intros g. unfold computations. simpl. rewrite Hl.
    reflexivity.
Qed.

Lemma hook_effect_none g w : hook_effect g false w w.
Proof. split; [reflexivity|]. intros g'. reflexivity. Qed.

(** What one hook does, by the kind of its callback. *)
Lemma on_epoch_end_effect i (dt dv : dataset) w w' :
  on_epoch_end mean cls i dt dv w = (ok tt, w') ->
  exists cb,
    callbacks w !! i = Some cb
    /\ match group_of cb with
       | Some g => hook_effect g (needs_compute cb) w w'
       | None => hook_effect PostEpochGroup false w w'
       end.
Proof.
  unfold on_epoch_end. intros H.
  apply mbind_ok_inv in H as (cb & w0 & Hget & H).
  apply get_callback_ok in Hget as [Hcb ->].
  exists cb. split; [exact Hcb|].
  unfold group_of. destruct (cb_kind cb) eqn:Hkind.
  - unfold CroppedTrialEpochScoring_on_epoch_end in H.
    apply mbind_ok_inv in H as ([] & w1 & Hprep & H).
    apply mbind_ok_inv in H as (self' & w2 & Hget & H).
    apply get_callback_ok in Hget as [_ ->].
    apply trial_results_effect in Hprep as (self & Hself & _ & Heff).
    assert (self = cb) as -> by congruence.
    specialize (Heff Hkind).
    pose proof (score_and_record_quiet_any self' (use_caching self')
                  (if on_train self' then dt else dv) w1) as [Hc Hn].
    rewrite H in Hc, Hn. simpl in Hc, Hn.
    exact (hook_effect_quiet _ _ _ _ _ Heff Hc Hn).
  - unfold PostEpochTrainScoring_on_epoch_end in H.
    apply mbind_ok_inv in H as ([] & w1 & Hprep & H).
    apply mbind_ok_inv in H as (self' & w2 & Hget & H).
    apply get_callback_ok in Hget as [_ ->].
    apply recomputed_preds_effect in Hprep as (self & Hself & Heff).
    assert (self = cb) as -> by congruence.
    specialize (Heff Hkind).
    pose proof (score_and_record_quiet_any self' true dt w1) as [Hc Hn].
    rewrite H in Hc, Hn. simpl in Hc, Hn.
    exact (hook_effect_quiet _ _ _ _ _ Heff Hc Hn).
  - injection H as <-. apply hook_effect_none.
Qed.

Lemma in_group_same_group g cb cb' :
  group_of cb' = group_of cb -> in_group g cb' = in_group g cb.
Proof. unfold in_group. intros ->. reflexivity. Qed.

Lemma in_group_unique g g' cb :
  in_group g cb = true -> in_group g' cb = true -> g = g'.
Proof. rewrite !in_group_eq. congruence. Qed.

Lemma in_group_of g g' cb :
  group_of cb = Some g -> in_group g' cb = group_eqb g' g.
Proof. unfold in_group. intros ->. reflexivity. Qed.

Lemma Forall2_compose {A B C} (P : A -> B -> Prop) (Q : B -> C -> Prop)
    (R : A -> C -> Prop) (l1 : list A) (l2 : list B) (l3 : list C) :
  (forall a b c, P a b -> Q b c -> R a c) ->
  Forall2 P l1 l2 -> Forall2 Q l2 l3 -> Forall2 R l1 l3.
Proof.
  intros H H12. revert l3. induction H12 as [|a b l1 l2 Hab _ IH];
    intros l3 H23; inversion H23; subst; constructor; eauto.
Qed.

Lemma Forall_Forall2_transport {B C} (P : B -> Prop) (Q : B -> C -> Prop)
    (R : C -> Prop) (l2 : list B) (l3 : list C) :
  (forall b c, P b -> Q b c -> R c) ->
  Forall P l2 -> Forall2 Q l2 l3 -> Forall R l3.
Proof.
  intros H HP HQ. induction HQ as [|b c l2 l3 Hbc _ IH]; constructor;
    inversion HP; subst; eauto.
Qed.

Lemma Forall2_right {B C} (Q : B -> C -> Prop) (R : C -> Prop)
    (l2 : list B) (l3 : list C) :
  (forall b c, Q b c -> R c) -> Forall2 Q l2 l3 -> Forall R l3.
Proof. intros H HQ. induction HQ; constructor; eauto. Qed.

Lemma touched_snoc g visited i w :
  touched g (visited ++ [i]) w
  = touched g visited w
    || match callbacks w !! i with
       | Some cb => in_group g cb
       | None => false
       end.
Proof.
  unfold touched. rewrite existsb_app. simpl. rewrite orb_false_r.
  reflexivity.
Qed.

Lemma fresh_needs_compute cb g :
  fresh cb = true -> group_of cb = Some g -> needs_compute cb = true.
Proof. unfold fresh. intros H Hg. rewrite Hg in H. exact H. Qed.

End EventFacts.

Section Event.
Context {F dataset batch_X : Type} (mean : list F -> F)
  (cls : @net_class F dataset batch_X).
Implicit Types (w : @world F dataset) (self cb : @callback F dataset)
  (g : group).

(** One more hook keeps the state of the event: a group is computed by
    the first hook of one of its callbacks and by no later one. *)
Lemma shared_state_step w0 w w1 visited i (dt dv : dataset) :
  forallb fresh (callbacks w0) = true ->
  shared_state w0 w visited ->
  on_epoch_end mean cls i dt dv w = (ok tt, w1) ->
  shared_state w0 w1 (visited ++ [i]).
Proof.
  intros Hfresh [Hgroups Hinv] Hhook.
  apply on_epoch_end_effect in Hhook as (cb & Hcb & Heff).
  destruct (Forall2_lookup_r _ _ _ _ _ Hgroups Hcb) as (cb0 & Hcb0 & Hg0).
  assert (Hfresh0 : fresh cb0 = true).
  { rewrite forallb_forall in Hfresh. apply Hfresh. apply list_elem_of_In.
    exact (list_elem_of_lookup_2 _ _ _ Hcb0). }
  destruct (group_of cb) as [gi|] eqn:Hgi.
  2:{ destruct Heff as [Hc Hn]. split; [rewrite Hc; exact Hgroups|].
      intros g. rewrite touched_snoc, Hcb0, Hc, Hn.
      replace (in_group g cb0) with false
        by (unfold in_group; rewrite <- Hg0; reflexivity).
      rewrite orb_false_r. exact (Hinv g). }
  symmetry in Hg0. destruct (needs_compute cb) eqn:Hneed.
  - destruct Heff as (Hcount & p & y & HE). split.
    { eapply Forall2_compose; [|exact Hgroups|exact HE].
      intros a b c Hab [Hbc _]. congruence. }
    intros g. rewrite touched_snoc, Hcb0, Hcount, (in_group_of gi g cb0 Hg0).
    specialize (Hinv g).
    destruct (touched g visited w0) eqn:Ht; cbn [orb].
    + destruct Hinv as (Hc0 & p0 & y0 & HP).
      assert (Hne : group_eqb g gi = false).
      { destruct (group_eqb g gi) eqn:E; [|reflexivity].
        apply group_eqb_eq in E; subst g.
        destruct (Forall_lookup_1 _ _ _ _ HP Hcb) as [Hn _];
          [apply in_group_eq; exact Hgi|congruence]. }
      rewrite Hne. split; [lia|]. exists p0, y0.
      eapply Forall_Forall2_transport; [|exact HP|exact HE].
      intros b c Hb [Hgc Hrest] Hin. cbn beta in *.
      rewrite (in_group_same_group _ _ _ Hgc) in Hin.
      destruct (in_group gi b) eqn:Egi.
      { pose proof (in_group_unique _ _ _ Hin Egi); subst.
        rewrite group_eqb_refl in Hne; discriminate. }
      subst c. apply Hb; exact Hin.
    + destruct Hinv as (Hc0 & HU). destruct (group_eqb g gi) eqn:E.
      * apply group_eqb_eq in E; subst g. split; [lia|]. exists p, y.
        eapply Forall2_right; [|exact HE].
        intros b c [Hgc Hrest] Hin. cbn beta in *.
        rewrite (in_group_same_group _ _ _ Hgc) in Hin.
        rewrite Hin in Hrest. exact Hrest.
      * split; [lia|].
        eapply Forall2_compose; [|exact HU|exact HE].
        intros a b c Hab [Hgc Hrest] Hin. cbn beta in *.
        specialize (Hab Hin). subst b.
        destruct (in_group gi a) eqn:Egi.
        { pose proof (in_group_unique _ _ _ Hin Egi). subst.
          rewrite group_eqb_refl in E. discriminate. }
        exact Hrest.
  - destruct Heff as [Hc Hn]. split; [rewrite Hc; exact Hgroups|].
    intros g. rewrite touched_snoc, Hcb0, Hc, Hn.
    specialize (Hinv g).
    destruct (touched g visited w0) eqn:Ht; cbn [orb]; [exact Hinv|].
    destruct (in_group g cb0) eqn:Ein; [|exact Hinv]. exfalso.
    destruct Hinv as [_ HU].
    pose proof (Forall2_lookup_lr _ _ _ _ _ _ HU Hcb0 Hcb Ein) as Heq.
    subst cb. apply in_group_eq in Ein.
    rewrite (fresh_needs_compute _ _ Hfresh0 Ein) in Hneed. discriminate.
Qed.

Lemma shared_state_start w : shared_state w w [].
Proof.
  split.
  - apply Forall_Forall2_diag, Forall_forall. reflexivity.
  - intros g. simpl. split; [reflexivity|].
    apply Forall_Forall2_diag, Forall_forall. reflexivity.
Qed.

Lemma notify_shared_state order (dt dv : dataset) :
  forall w0 w w' visited,
    forallb fresh (callbacks w0) = true ->
    shared_state w0 w visited ->
    notify_on_epoch_end mean cls order dt dv w = (ok tt, w') ->
    shared_state w0 w' (visited ++ order).
Proof.
  induction order as [|i order IH]; intros w0 w w' visited Hfresh Hst H.
  - injection H as <-. rewrite app_nil_r. exact Hst.
  - cbn [notify_on_epoch_end] in H.
    apply mbind_ok_inv in H as ([] & w1 & Hhook & H).
    replace (visited ++ i :: order) with ((visited ++ [i]) ++ order)
      by (rewrite <- app_assoc; reflexivity).
    eapply IH; [exact Hfresh| |exact H].
    eapply shared_state_step; eassumption.
Qed.

(** C4.  An epoch-end event that starts with nothing computed and whose
    hooks all return: for every group (the trial scorers of one data
    split; the post-epoch scorers) with a hook among those invoked, the
    shared computation was started exactly once, and at the end every
    callback of the group is in the computed state and holds the same
    predictions and the same labels. *)
Theorem broadcast_idempotence (order : list nat) (dt dv : dataset) w g :
  forallb fresh (callbacks w) = true ->
  (notify_on_epoch_end mean cls order dt dv w).1 = ok tt ->
  touched g order w = true ->
  let w' := (notify_on_epoch_end mean cls order dt dv w).2 in
  computations g w' = S (computations g w)
  /\ exists p y,
       Forall (fun cb => in_group g cb = true ->
                         needs_compute cb = false
                         /\ y_preds_ cb = p /\ y_trues_ cb = y)
         (callbacks w').
Proof.
  intros Hfresh Hrun Ht w'.
  assert (Hrun' : notify_on_epoch_end mean cls order dt dv w = (ok tt, w')).
  { subst w'. destruct (notify_on_epoch_end mean cls order dt dv w).
    simpl in *. congruence. }
  destruct (notify_shared_state order dt dv w w w' [] Hfresh
              (shared_state_start w) Hrun') as [_ Hinv].
  specialize (Hinv g). cbn [app] in Hinv. rewrite Ht in Hinv. exact Hinv.
Qed.

End Event.

(** ** Claims on the hooks *)

Section HookClaims.
Context {F dataset batch_X : Type} (mean : list F -> F)
  (cls : @net_class F dataset batch_X).
Implicit Types (w : @world F dataset) (self cb : @callback F dataset).

(** A callback is fresh after [_initialize_cache]. *)
Lemma initialize_cache_fresh cb :
  fresh (@_initialize_cache F dataset cb) = true.
Proof.
  unfold fresh, group_of, needs_compute, _initialize_cache. simpl.
  destruct (cb_kind cb); reflexivity.
Qed.

(** On well-formed window numbers the mask is off at the first window of
    the first trial. *)
Lemma mask_misses_first_window (idx : list Z) :
  well_formed idx = true ->
  exists m, supercrop_0_per_trial_mask idx = false :: m.
Proof.
  destruct idx as [|i idx]; [discriminate|]. simpl.
  intros H. apply andb_true_iff in H as [H0 _]. apply Z.eqb_eq in H0.
  subst i. eexists. reflexivity.
Qed.

Lemma diff_from_successor (idx : list Z) (i : Z) :
  forall (k : nat) (p : Z),
    idx !! k = Some i -> idx !! S k = Some (i + 1)%Z ->
    diff_from p idx !! S k = Some 1%Z.
Proof.
  induction idx as [|j idx IH]; intros k p Hk HSk; [discriminate|].
  destruct k as [|k].
  - destruct idx as [|j' idx]; [discriminate|].
    simpl in Hk, HSk. injection Hk as ->. injection HSk as ->. simpl.
    f_equal. lia.
  - simpl in Hk, HSk. exact (IH k j Hk HSk).
Qed.

(** The mask is on at every window that continues its trial. *)
Lemma mask_keeps_later_windows (idx : list Z) (i : Z) (k : nat) :
  idx !! k = Some i -> idx !! S k = Some (i + 1)%Z ->
  supercrop_0_per_trial_mask idx !! S k = Some true.
Proof.
  intros Hk HSk. unfold supercrop_0_per_trial_mask, diff_prepend.
  rewrite list_lookup_fmap, (diff_from_successor idx i k 1%Z Hk HSk).
  reflexivity.
Qed.

(** The first part of the hook of the trial scorer, case by case. *)
Lemma trial_results_cases i (dt : dataset) w w1 :
  trial_results mean cls i dt w = (ok tt, w1) ->
  exists self0,
    callbacks w !! i = Some self0
    /\ use_caching self0 = true
    /\ (w1 = w
        \/ exists p y,
             w1 = set_callbacks
                    (map (fun cb =>
                            if is_cropped_on (on_train self0) cb
                            then set_trial_results p y cb else cb)
                       (callbacks w))
                    (observe (Compute (CroppedGroup (on_train self0))) w).2).
Proof.
  unfold trial_results. intros H.
  apply mbind_ok_inv in H as (self & w0 & Hget & H).
  apply get_callback_ok in Hget as [Hself ->].
  apply mbind_ok_inv in H as ([] & w0 & Hassert & H).
  unfold lift, py_assert in Hassert.
  destruct (use_caching self) eqn:Huc; [|discriminate].
  injection Hassert as <-.
  exists self. split; [exact Hself|]. split; [exact Huc|].
  destruct (negb (crops_to_trials_computed self)).
  - right. unfold crops_to_trials in H.
    apply mbind_ok_inv in H as ([] & w2 & Hobs & H).
    apply mbind_ok_inv in H as ([p y] & w3 & Hres & H).
    unfold lift in Hres. injection Hres as Hres <-.
    unfold broadcast, modify in H. injection H as <-.
    unfold observe, modify in Hobs. injection Hobs as <-.
    exists p, y. reflexivity.
  - left. injection H as <-. reflexivity.
Qed.


End HookClaims.

Import Fixture.

(** C1 (the code departs from the claim).  Two trials of three windows
    each, labels 4 and 9: the claim asks for the labels [4, 9] of the two
    windows of number 0.  The mask [np.diff(..., prepend=[1]) != -1] is
    off at the first window and on at every window that continues a
    trial, so five labels come out, for two trial predictions. *)
Theorem trial_labels_are_not_first_windows :
  let preds : list (array2 Z) :=
    [[[1; 2; 3]]; [[2; 3; 4]]; [[3; 4; 5]];
     [[6; 7; 8]]; [[7; 8; 9]]; [[8; 9; 10]]] in
  let pred := PredResults [0; 1; 2; 0; 1; 2] [3; 4; 5; 3; 4; 5] preds
                [4; 4; 4; 9; 9; 9] in
  supercrop_0_per_trial_mask (i_supercrop_in_trials pred)
  = [false; true; true; true; true; true]
  /\ trial_ys_of pred = ok [4; 4; 9; 9; 9]
  /\ trial_preds_from_supercrop_preds (Scoring.preds pred)
       (i_supercrop_in_trials pred) (i_supercrop_stops pred)
     = ok [[[1; 2; 3; 4; 5]]; [[6; 7; 8; 9; 10]]].
Proof. repeat split. Qed.

Lemma broadcast_idempotence_witness :
  let w := net_with [valid_scorer "accuracy" count_batches;
                     train_scorer "train_accuracy";
                     valid_scorer "f1" count_batches;
                     train_scorer "train_f1"] in
  let w' := (notify_on_epoch_end mean cls [0; 1; 2; 3]%nat 10%nat 20%nat w).2 in
  computations (CroppedGroup false) w'
  = S (computations (CroppedGroup false) w)
  /\ exists p y,
       Forall (fun cb => in_group (CroppedGroup false) cb = true ->
                         needs_compute cb = false
                         /\ y_preds_ cb = p /\ y_trues_ cb = y)
         (callbacks w').
Proof.
  intros w.
  apply (broadcast_idempotence mean cls [0; 1; 2; 3]%nat 10%nat 20%nat w);
    reflexivity.
Defined.


(** * Further properties of the code *)

(** ** The reassembler *)

Section ReassemblerMore.
Context {A : Type}.
Implicit Types (t : trial A) (w : array2 A) (preds : list (array2 A)).

Lemma split_trials_singletons (l : list (array2 A * (Z * Z))) :
  Forall (fun x => fst (snd x) = 0%Z) l ->
  split_trials l = map (fun x => [(fst x, snd (snd x))]) l.
Proof.
  induction 1 as [|[w [i s]] l Hi Hl IH]; [reflexivity|].
  cbn [split_trials]. rewrite IH. destruct l as [|[w' [i' s']] l];
    [reflexivity|].
  inversion Hl as [|? ? Hi' _]; subst. simpl in Hi'. subst i'.
  reflexivity.
Qed.

Lemma all_ok_singletons (l : list (array2 A * (Z * Z))) :
  all_ok (map trial_pred (map (fun x => [(fst x, snd (snd x))]) l))
  = ok (map fst l).
Proof.
  induction l as [|[w [i s]] l IH]; [reflexivity|].
  cbn [map all_ok]. rewrite IH. reflexivity.
Qed.

Lemma well_formed_zeros (n : nat) :
  well_formed (replicate (S n) 0%Z) = true.
Proof.
  simpl. induction n as [|n IH]; [reflexivity|]. simpl. exact IH.
Qed.

(** X1.  Trials of one window each (every window number is 0) come back
    as they are, whatever the stops: nothing is cut and nothing merged. *)
Theorem single_window_trials_unchanged preds (stops : list Z) :
  preds <> [] -> length stops = length preds ->
  trial_preds_from_supercrop_preds preds
    (replicate (length preds) 0%Z) stops
  = ok preds.
Proof.
  intros Hne Hs.
  assert (Hl : length preds = length (replicate (length preds) 0%Z))
    by (rewrite length_replicate; reflexivity).
  rewrite reassembler_by_trials;
    [|destruct preds; [congruence|apply well_formed_zeros]
     |exact Hl|congruence].
  rewrite split_trials_singletons, all_ok_singletons.
  - f_equal. apply fst_zip. rewrite length_zip, <- Hl, Hs. lia.
  - apply Forall_forall. intros [w [i s]] Hin. simpl.
    apply elem_of_zip_r in Hin. apply elem_of_zip_l in Hin. simpl in Hin.
    apply elem_of_replicate in Hin as [-> _]. reflexivity.
Qed.

(** X2.  The reassembler never returns an empty list of trials and
    returns nothing on an empty input: without windows the final
    [np.concatenate] has nothing to concatenate and raises. *)
Theorem reassembler_result_not_empty preds (idx stops : list Z) :
  (forall out,
      trial_preds_from_supercrop_preds preds idx stops = ok out ->
      out <> [] /\ preds <> [])
  /\ trial_preds_from_supercrop_preds (@nil (array2 A)) [] []
     = raise ValueError.
Proof.
  split; [|reflexivity].
  intros out. unfold trial_preds_from_supercrop_preds.
  destruct (length preds =? length idx)%nat; [|discriminate].
  destruct (length idx =? length stops)%nat; [|discriminate]. simpl.
  destruct preds as [|p preds]; [discriminate|].
  destruct (for_each _ _ _) as [e|st]; simpl; [discriminate|].
  unfold finish. destruct (concatenate_axis1 _); simpl; [discriminate|].
  intros [= <-]. split; [|discriminate].
  intros H. apply app_eq_nil in H as [_ H]. discriminate.
Qed.

End ReassemblerMore.

Lemma single_window_trials_unchanged_witness :
  trial_preds_from_supercrop_preds
    [[[1; 2]; [3; 4]]; [[5; 6]; [7; 8]]]%Z (replicate 2 0%Z) [2; 9]%Z
  = ok [[[1; 2]; [3; 4]]; [[5; 6]; [7; 8]]]%Z.
Proof.
  apply (single_window_trials_unchanged
           [[[1; 2]; [3; 4]]; [[5; 6]; [7; 8]]]%Z [2; 9]%Z);
    [discriminate|reflexivity].
Defined.


Section TimeSteps.
Context {A : Type}.
Implicit Types (t : trial A) (w : array2 A) (preds : list (array2 A)).

Lemma zip_with_app_lengths (a b : array2 A) (n m : Z) :
  length a = length b ->
  Forall (fun r => Z.of_nat (length r) = n) a ->
  Forall (fun r => Z.of_nat (length r) = m) b ->
  Forall (fun r => Z.of_nat (length r) = (n + m)%Z) (zip_with app a b).
Proof.
  intros Hl Ha. revert b Hl. induction Ha as [|r a Hr _ IH];
    intros [|r' b] Hl Hb; simpl; try constructor; try discriminate.
  - inversion Hb as [|? ? Hr' _]. rewrite length_app. lia.
  - inversion Hb as [|? ? _ Hb']. apply IH; [simpl in Hl; lia|exact Hb'].
Qed.

Lemma zip_with_app_longer (a b : array2 A) (m : Z) :
  length a = length b ->
  Forall (fun r => Z.of_nat (length r) = m) b ->
  Forall2 (fun r0 r => Z.of_nat (length r) = (Z.of_nat (length r0) + m)%Z)
    a (zip_with app a b).
Proof.
  revert b. induction a as [|r a IH]; intros [|r' b] Hl Hb; simpl;
    try constructor; try discriminate.
  - inversion Hb as [|? ? Hr' _]. rewrite length_app. lia.
  - inversion Hb as [|? ? _ Hb']. apply IH; [simpl in Hl; lia|exact Hb'].
Qed.

Lemma slice_from_axis1_lengths (n : Z) w :
  (0 < n)%Z ->
  forallb (fun row => (n <=? Z.of_nat (length row))%Z) w = true ->
  Forall (fun r => Z.of_nat (length r) = n) (slice_from_axis1 (- n) w).
Proof.
  intros Hn Hw. rewrite forallb_forall in Hw. unfold slice_from_axis1.
  apply Forall_forall. intros r Hr.
  apply list_elem_of_fmap in Hr as (row & -> & Hrow).
  apply list_elem_of_In, Hw, Z.leb_le in Hrow.
  rewrite slice_from_last by lia. rewrite length_drop. lia.
Qed.

Lemma last_stop_from_some t :
  forall x, exists l, last_stop_from (Some x) t = Some l.
Proof.
  induction t as [|[w s] t IH]; intros x; simpl; [eauto|apply IH].
Qed.

Lemma concatenate_axis1_cons (a : array2 A) (rest : list (array2 A))
    (r : array2 A) :
  rest <> [] ->
  concatenate_axis1 rest = ok r ->
  concatenate_axis1 (a :: rest)
  = if (length a =? length r)%nat then ok (zip_with app a r)
    else raise ValueError.
Proof.
  destruct rest as [|b rest]; [congruence|]. intros _ H.
  change (concatenate_axis1 (a :: b :: rest))
    with (let* r := concatenate_axis1 (b :: rest) in
          if (length a =? length r)%nat then ok (zip_with app a r)
          else raise ValueError).
  rewrite H. reflexivity.
Qed.

(** The later windows of a trial, cut and concatenated: as many columns
    as the stop moved on since [last]. *)
Lemma concatenate_kept_advances (n_classes : nat) t :
  forall last,
    t <> [] ->
    Forall (fun ws => length (fst ws) = n_classes) t ->
    advances_from last t = true ->
    exists r,
      concatenate_axis1 (kept_from (Some last) t) = ok r
      /\ length r = n_classes
      /\ Forall (fun row =>
                   Z.of_nat (length row)
                   = (default last (last_stop_from (Some last) t) - last)%Z)
           r.
Proof.
  induction t as [|[w s] t IH]; intros last Hne Hrows Hadv; [congruence|].
  inversion Hrows as [|? ? Hw Ht]. simpl in Hw.
  cbn [advances_from] in Hadv.
  apply andb_true_iff in Hadv as [Hadv Hadv'].
  apply andb_true_iff in Hadv as [Hpos Hlen]. apply Z.ltb_lt in Hpos.
  pose proof (slice_from_axis1_lengths _ _ Hpos Hlen) as Hcols.
  destruct t as [|[w' s'] t].
  - eexists. split; [reflexivity|]. split.
    + simpl. unfold slice_from_axis1. rewrite length_map. exact Hw.
    + simpl. exact Hcols.
  - destruct (IH s) as (r & Hr & Hrl & Hrc); [discriminate|exact Ht|exact Hadv'|].
    change (kept_from (Some last) ((w, s) :: (w', s') :: t))
      with (slice_from_axis1 (- (s - last)) w
            :: kept_from (Some s) ((w', s') :: t)).
    rewrite (concatenate_axis1_cons _ _ r); [|discriminate|exact Hr].
    unfold slice_from_axis1 at 1. rewrite length_map, Hw, Hrl, Nat.eqb_refl.
    eexists. split; [reflexivity|]. split.
    + rewrite length_zip_with. unfold slice_from_axis1.
      rewrite length_map. lia.
    + cbn [last_stop_from] in Hrc |- *.
      assert (Hl : length (slice_from_axis1 (- (s - last)) w) = length r)
        by (unfold slice_from_axis1; rewrite length_map; congruence).
      destruct (last_stop_from_some t s') as [l' Hl'].
      rewrite Hl' in Hrc |- *. cbn [default] in Hrc |- *.
      eapply Forall_impl;
        [exact (zip_with_app_lengths _ _ _ _ Hl Hcols Hrc)|].
      intros row Hrow. cbn beta in *. lia.
Qed.

(** The prediction of a trial whose windows advance: the rows of the
    first window, longer by what the stops moved on. *)
Lemma trial_pred_spans (n_classes : nat) t :
  t <> [] ->
  Forall (fun ws => length (fst ws) = n_classes) t ->
  advances t = true ->
  exists o, trial_pred t = ok o /\ length o = n_classes /\ spans t o.
Proof.
  destruct t as [|[w0 s0] t]; [congruence|]. intros _ Hrows Hadv.
  inversion Hrows as [|? ? Hw Ht]. simpl in Hw, Hadv.
  unfold trial_pred.
  destruct t as [|[w' s'] t].
  - exists w0. split; [reflexivity|]. split; [exact Hw|].
    simpl. apply Forall_Forall2_diag, Forall_forall. intros r _. lia.
  - destruct (concatenate_kept_advances n_classes ((w', s') :: t) s0)
      as (r & Hr & Hrl & Hrc); [discriminate|exact Ht|exact Hadv|].
    change (kept_from None ((w0, s0) :: (w', s') :: t))
      with (w0 :: kept_from (Some s0) ((w', s') :: t)).
    rewrite (concatenate_axis1_cons _ _ r); [|discriminate|exact Hr].
    rewrite Hw, Hrl, Nat.eqb_refl.
    eexists. split; [reflexivity|]. split.
    + rewrite length_zip_with. lia.
    + cbn [spans stop_span]. apply zip_with_app_longer; [congruence|].
      exact Hrc.
Qed.

Lemma split_trials_facts (n_classes : nat) preds (idx stops : list Z) :
  well_formed idx = true ->
  length preds = length idx -> length stops = length idx ->
  Forall (fun w => length w = n_classes) preds ->
  Forall (fun t => t <> []
                   /\ Forall (fun ws => length (fst ws) = n_classes) t)
    (split_trials (zip preds (zip idx stops))).
Proof.
  intros Hwf Hp Hs Hrows.
  set (l := zip preds (zip idx stops)).
  assert (Hn : numbers l = idx) by (apply numbers_zip; assumption).
  assert (Hwf' : well_formed (numbers l) = true) by (rewrite Hn; exact Hwf).
  destruct (split_trials_windows l Hwf') as (Hw & Hne & _).
  assert (Hr : Forall (Forall (fun ws => length (fst ws) = n_classes))
                 (split_trials l)).
  { apply (rows_of_windows (fun a => length a = n_classes)).
    rewrite Hw. subst l.
    apply (rows_of_zip (fun a => length a = n_classes)). exact Hrows. }
  rewrite Forall_forall in Hne, Hr |- *. intros t Ht.
  split; [apply Hne|apply Hr]; exact Ht.
Qed.

(** X3.  On a well-formed input whose windows have [n_classes] rows and
    advance inside each trial (each later stop is past the one before it,
    by no more than the window is long), every trial prediction has
    [n_classes] rows, and each row is as long as the row of the trial's
    first window plus the distance from the first stop of the trial to its
    last: the overlap is counted once. *)
Theorem trial_time_steps (n_classes : nat) preds (idx stops : list Z) :
  well_formed idx = true ->
  length preds = length idx -> length stops = length idx ->
  Forall (fun w => length w = n_classes) preds ->
  forallb advances (split_trials (zip preds (zip idx stops))) = true ->
  exists out,
    trial_preds_from_supercrop_preds preds idx stops = ok out
    /\ Forall2 (fun o t => length o = n_classes /\ spans t o) out
         (split_trials (zip preds (zip idx stops))).
Proof.
  intros Hwf Hp Hs Hrows Hadv.
  destruct (reassembler_returns n_classes preds idx stops Hwf Hp Hs Hrows)
    as (out & Hout & Hall).
  exists out. split; [exact Hout|]. clear Hout.
  apply all_ok_Forall2 in Hall.
  pose proof (split_trials_facts n_classes preds idx stops Hwf Hp Hs Hrows)
    as Hfacts.
  rewrite forallb_forall in Hadv. revert Hadv Hfacts Hall.
  generalize (split_trials (zip preds (zip idx stops))) as ts.
  intros ts Hadv Hfacts Hall.
  induction Hall as [|o t out ts Ht _ IH]; constructor.
  - inversion Hfacts as [|? ? [Hne Hr] _].
    destruct (trial_pred_spans n_classes t Hne Hr) as (o' & Ho' & Hlen & Hsp).
    { apply Hadv. left. reflexivity. }
    rewrite Ht in Ho'. injection Ho' as <-. split; assumption.
  - apply IH;
      first [ intros t' Ht'; apply Hadv; right; exact Ht'
            | inversion Hfacts; assumption ].
Qed.

End TimeSteps.

Lemma trial_time_steps_witness :
  exists out,
    trial_preds_from_supercrop_preds
      [[[1; 2; 3]]; [[2; 3; 4]]; [[7; 8; 9]]]%Z [0; 1; 0]%Z [3; 4; 3]%Z
    = ok out
    /\ Forall2 (fun o t => length o = 1%nat /\ spans t o) out
         (split_trials
            (zip [[[1; 2; 3]]; [[2; 3; 4]]; [[7; 8; 9]]]%Z
               (zip [0; 1; 0]%Z [3; 4; 3]%Z))).
Proof.
  apply (trial_time_steps 1%nat);
    [reflexivity|reflexivity|reflexivity| |reflexivity].
  repeat constructor.
Defined.

Lemma loop_body_positive_needed_witness :
  loop_body (LoopState [] [[[1; 2; 3]; [4; 5; 6]]] (Some 3) 0)
    ([[2; 3; 9]; [5; 6; 8]], (1, 4))%Z
  = ok (LoopState []
          ([[[1; 2; 3]; [4; 5; 6]]]
           ++ [last_columns (Z.to_nat (4 - 3)) [[2; 3; 9]; [5; 6; 8]]])
          (Some 4) 1)%Z.
Proof.
  apply (loop_body_positive_needed
           (LoopState [] [[[1; 2; 3]; [4; 5; 6]]] (Some 3) 0)%Z
           [[2; 3; 9]; [5; 6; 8]]%Z 1 4 3)%Z;
    [reflexivity|reflexivity|lia|].
  repeat constructor; simpl; lia.
Defined.

Section OutOfRange.
Context {A : Type}.
Implicit Types (st : loop_state A) (w : array2 A).

Lemma slice_from_oversized (n : Z) (row : list A) :
  (Z.of_nat (length row) <= n)%Z -> slice_from (- n) row = row.
Proof.
  intros Hn. unfold slice_from, slice_start.
  destruct (- n <? 0)%Z eqn:E.
  - replace (Z.max 0 _) with 0%Z by lia. reflexivity.
  - apply Z.ltb_ge in E. replace (Z.min _ _) with 0%Z by lia. reflexivity.
Qed.

Lemma slice_from_negative (n : Z) (row : list A) :
  (n < 0)%Z -> slice_from (- n) row = drop (Z.to_nat (- n)) row.
Proof.
  intros Hn. unfold slice_from, slice_start.
  replace (- n <? 0)%Z with false by (symmetry; apply Z.ltb_ge; lia).
  destruct (Z.le_gt_cases (- n) (Z.of_nat (length row))) as [H|H].
  - rewrite Z.min_l by lia. reflexivity.
  - rewrite Z.min_r by lia. rewrite Nat2Z.id.
    rewrite !drop_ge by lia. reflexivity.
Qed.

(** X5.  Stops that are out of range raise nothing.  For a window that
    continues its trial: when the stop has moved on by at least the length
    of its rows (windows that touch or leave a gap) the window is appended
    whole, no time step is made up for the gap; when the stop has moved
    backwards by [k], the window is appended without its first [k]
    columns. *)
Theorem out_of_range_stops_are_clipped st w (i s last : Z) :
  i = (i_last_supercrop st + 1)%Z ->
  i_last_stop st = Some last ->
  (Forall (fun row => (Z.of_nat (length row) <= s - last)%Z) w ->
   loop_body st (w, (i, s))
   = ok (LoopState (preds_per_trial st) (cur_trial_preds st ++ [w])
           (Some s) i))
  /\ ((s - last < 0)%Z ->
      loop_body st (w, (i, s))
      = ok (LoopState (preds_per_trial st)
              (cur_trial_preds st ++ [map (drop (Z.to_nat (last - s))) w])
              (Some s) i)).
Proof.
  intros -> Hlast. unfold loop_body, new_trial_check.
  rewrite Z.eqb_refl. simpl. rewrite Hlast. simpl. split.
  - intros Hlen. do 4 f_equal. unfold slice_from_axis1.
    rewrite <- (map_id w) at 2. apply map_ext_in. intros row Hrow.
    rewrite Forall_forall in Hlen. apply slice_from_oversized.
    apply Hlen, list_elem_of_In. exact Hrow.
  - intros Hneg. do 4 f_equal. unfold slice_from_axis1.
    apply map_ext. intros row. rewrite slice_from_negative by lia.
    do 2 f_equal. lia.
Qed.

End OutOfRange.

Lemma out_of_range_stops_are_clipped_witness :
  loop_body (LoopState [] [[[1; 2; 3]]] (Some 3) 0) ([[4; 5; 6]], (1, 8))%Z
  = ok (LoopState [] [[[1; 2; 3]]; [[4; 5; 6]]] (Some 8) 1)%Z
  /\ loop_body (LoopState [] [[[1; 2; 3]]] (Some 3) 0)
       ([[4; 5; 6]], (1, 1))%Z
     = ok (LoopState [] [[[1; 2; 3]]; [[6]]] (Some 1) 1)%Z.
Proof.
  split.
  - apply (proj1 (out_of_range_stops_are_clipped
                    (LoopState [] [[[1; 2; 3]]] (Some 3) 0)%Z
                    [[4; 5; 6]]%Z 1 8 3 eq_refl eq_refl)%Z).
    repeat constructor; simpl; lia.
  - apply (proj2 (out_of_range_stops_are_clipped
                    (LoopState [] [[[1; 2; 3]]] (Some 3) 0)%Z
                    [[4; 5; 6]]%Z 1 1 3 eq_refl eq_refl)%Z).
    lia.
Defined.

(** ** The labels of the trial scorer *)

Section MaskMore.
Context {F : Type}.

Lemma diff_from_length (idx : list Z) :
  forall p, length (diff_from p idx) = length idx.
Proof. induction idx as [|i idx IH]; intros p; simpl; [|rewrite IH]; reflexivity. Qed.

Lemma diff_from_lookup (idx : list Z) (a b : Z) :
  forall (k : nat) (p : Z),
    idx !! k = Some a -> idx !! S k = Some b ->
    diff_from p idx !! S k = Some (b - a)%Z.
Proof.
  induction idx as [|j idx IH]; intros k p Hk HSk; [discriminate|].
  destruct k as [|k].
  - destruct idx as [|j' idx]; [discriminate|].
    simpl in Hk, HSk. injection Hk as ->. injection HSk as ->. reflexivity.
  - simpl in Hk, HSk. exact (IH k j Hk HSk).
Qed.

Lemma select_sublist {B} (a : list B) :
  forall mask, sublist (select a mask) a.
Proof.
  induction a as [|x a IH]; intros [|b mask]; simpl;
    try apply sublist_nil_l.
  destruct b; [apply sublist_skip|apply sublist_cons]; apply IH.
Qed.

(** X6.  What the mask of the epoch-end hook selects on well-formed
    window numbers: not the first window of the first trial; every window
    that continues its trial; and the first window of a later trial
    exactly when the trial before it does not end at window number 1. *)
Theorem mask_on_well_formed (idx : list Z) :
  well_formed idx = true ->
  length (supercrop_0_per_trial_mask idx) = length idx
  /\ supercrop_0_per_trial_mask idx !! 0%nat = Some false
  /\ (forall (k : nat) (i : Z),
        idx !! k = Some i -> idx !! S k = Some (i + 1)%Z ->
        supercrop_0_per_trial_mask idx !! S k = Some true)
  /\ (forall (k : nat) (i : Z),
        idx !! k = Some i -> idx !! S k = Some 0%Z ->
        supercrop_0_per_trial_mask idx !! S k = Some (negb (i =? 1)%Z)).
Proof.
  intros Hwf. unfold supercrop_0_per_trial_mask, diff_prepend.
  split; [rewrite length_map; apply diff_from_length|]. split; [|split].
  - destruct idx as [|i idx]; [discriminate|]. simpl in Hwf |- *.
    apply andb_true_iff in Hwf as [H0 _]. apply Z.eqb_eq in H0. subst i.
    reflexivity.
  - intros k i Hk HSk.
    rewrite list_lookup_fmap, (diff_from_lookup idx i (i + 1) k 1%Z Hk HSk).
    simpl. f_equal.
    replace (i + 1 - i =? -1)%Z with false
      by (symmetry; apply Z.eqb_neq; lia).
    reflexivity.
  - intros k i Hk HSk.
    rewrite list_lookup_fmap, (diff_from_lookup idx i 0 k 1%Z Hk HSk).
    simpl. do 2 f_equal.
    destruct (i =? 1)%Z eqn:E.
    + apply Z.eqb_eq in E. subst i. reflexivity.
    + apply Z.eqb_neq in E. apply Z.eqb_neq. lia.
Qed.

(** X7.  The labels of the trials are picked among the labels of the
    windows, in their order; a label array that is not as long as the
    window numbers makes the boolean index raise [IndexError]. *)
Theorem trial_ys_are_window_labels (pred : @pred_results F) :
  (length (supercrop_ys pred) <> length (i_supercrop_in_trials pred) ->
   trial_ys_of pred = raise IndexError)
  /\ (forall ys,
        trial_ys_of pred = ok ys ->
        length (supercrop_ys pred) = length (i_supercrop_in_trials pred)
        /\ sublist ys (supercrop_ys pred)).
Proof.
  unfold trial_ys_of, boolean_index, supercrop_0_per_trial_mask,
    diff_prepend.
  rewrite length_map, diff_from_length.
  destruct (length (supercrop_ys pred)
            =? length (i_supercrop_in_trials pred))%nat eqn:E.
  - apply Nat.eqb_eq in E. split; [congruence|].
    intros ys [= <-]. split; [exact E|apply select_sublist].
  - split; [reflexivity|]. intros ys; discriminate.
Qed.

End MaskMore.

Lemma mask_on_well_formed_witness :
  length (supercrop_0_per_trial_mask [0; 1; 0; 1; 2; 0]%Z) = 6%nat
  /\ supercrop_0_per_trial_mask [0; 1; 0; 1; 2; 0]%Z !! 0%nat = Some false
  /\ supercrop_0_per_trial_mask [0; 1; 0; 1; 2; 0]%Z !! 4%nat = Some true
  /\ supercrop_0_per_trial_mask [0; 1; 0; 1; 2; 0]%Z !! 2%nat = Some false
  /\ supercrop_0_per_trial_mask [0; 1; 0; 1; 2; 0]%Z !! 5%nat = Some true.
Proof.
  destruct (mask_on_well_formed [0; 1; 0; 1; 2; 0]%Z eq_refl)
    as (Hlen & H0 & Hcont & Hnew).
  split; [exact Hlen|]. split; [exact H0|]. split; [|split].
  - exact (Hcont 3%nat 1%Z eq_refl eq_refl).
  - exact (Hnew 1%nat 1%Z eq_refl eq_refl).
  - exact (Hnew 4%nat 2%Z eq_refl eq_refl).
Defined.

Lemma trial_ys_are_window_labels_witness :
  @trial_ys_of Z (PredResults [0; 1]%Z [3; 5]%Z [] [7]%Z) = raise IndexError.
Proof.
  apply (proj1 (trial_ys_are_window_labels
                  (PredResults [0; 1]%Z [3; 5]%Z [] [7]%Z))).
  simpl. lia.
Defined.

(** ** The cache *)

Section CacheMore.
Context {F dataset batch_X : Type}.
Implicit Types (cls : @net_class F dataset batch_X) (w : @world F dataset)
  (c : @call dataset) (y_preds : list (@tensor F)).

Lemma del_forward_iter_missing w :
  net_dict w !! "forward_iter" = None ->
  @del_forward_iter F dataset w = (raise (KeyError "forward_iter"), w).
Proof. intros H. unfold del_forward_iter. rewrite H. reflexivity. Qed.

(** X8.  Two caching scopes on the same net do not nest: the inner one
    deletes the entry [forward_iter] when it closes, so the [del] of the
    outer one finds no entry and the outer block ends in [KeyError],
    whatever the scoring function did. *)
Theorem nested_cache_scopes_raise cls {R} (y_outer y_inner : list tensor)
    (p : prog R) w :
  let out :=
    _cache_net_forward_iter true y_outer
      (_cache_net_forward_iter true y_inner (run cls p)) w in
  out.1 = raise (KeyError "forward_iter")
  /\ net_dict out.2 !! "forward_iter" = None.
Proof.
  intros out.
  assert (Heq : exists w',
             out = (raise (KeyError "forward_iter"), w')
             /\ net_dict w' !! "forward_iter" = None).
  { subst out. unfold _cache_net_forward_iter at 1. cbn [negb].
    rewrite (mbind_ok _ _ _ _ _ (override_forward_iter_spec y_outer w)).
    unfold try_finally.
    rewrite (cache_scope_spec y_inner (run cls p) _ (run_frame cls p)).
    rewrite del_forward_iter_missing by (simpl; apply lookup_delete_eq).
    eexists. split; [reflexivity|]. simpl. apply lookup_delete_eq. }
  destruct Heq as (w' & -> & Hnone). split; [reflexivity|exact Hnone].
Qed.

Lemma call_forward_iter_cached cls1 cls2 c w dev it :
  net_dict w !! "forward_iter" = Some (CachedForwardIter dev it) ->
  call_forward_iter cls1 c w = call_forward_iter cls2 c w.
Proof. intros H. unfold call_forward_iter. rewrite H. reflexivity. Qed.

Lemma run_cached cls1 cls2 {R} (p : prog R) dev it :
  forall w,
    net_dict w !! "forward_iter" = Some (CachedForwardIter dev it) ->
    run cls1 p w = run cls2 p w.
Proof.
  induction p as [r|e|c k IH]; intros w Hw; simpl; try reflexivity.
  unfold mbind. rewrite (call_forward_iter_cached cls1 cls2 c w dev it Hw).
  pose proof (call_forward_iter_frame cls2 c w) as (Hd & _).
  destruct (call_forward_iter cls2 c w) as [[e|ys] w1]; [reflexivity|].
  simpl in Hd. apply IH. rewrite Hd. exact Hw.
Qed.

(** X9.  Under the cache no real inference is run: the block with
    caching on comes out the same whatever the methods of the net's class
    do, for every scoring function. *)
Theorem cached_scoring_runs_no_inference cls1 cls2 {R}
    (y_preds : list tensor) (p : prog R) w :
  _cache_net_forward_iter true y_preds (run cls1 p) w
  = _cache_net_forward_iter true y_preds (run cls2 p) w.
Proof.
  rewrite (cache_scope_spec y_preds (run cls1 p) w (run_frame cls1 p)).
  rewrite (cache_scope_spec y_preds (run cls2 p) w (run_frame cls2 p)).
  rewrite (run_cached cls1 cls2 p (net_device w) (length (iterators w)))
    by apply inside_scope_forward_iter.
  reflexivity.
Qed.

End CacheMore.

(** ** The hooks and the history *)

Section HistoryFacts.
Context {F dataset batch_X : Type} (mean : list F -> F)
  (cls : @net_class F dataset batch_X).
Implicit Types (w : @world F dataset) (self cb : @callback F dataset).

Lemma same_setup_refl cb : same_setup cb cb.
Proof. repeat split. Qed.

Lemma same_setup_trans cb1 cb2 cb3 :
  same_setup cb1 cb2 -> same_setup cb2 cb3 -> same_setup cb1 cb3.
Proof.
  intros (?&?&?&?&?) (?&?&?&?&?). repeat split; congruence.
Qed.

Lemma broadcast_same_setup (member : callback -> bool)
    (assign : callback -> callback) (cbs : list (@callback F dataset)) :
  (forall cb, same_setup cb (assign cb)) ->
  Forall2 same_setup cbs
    (map (fun cb => if member cb then assign cb else cb) cbs).
Proof.
  intros H. induction cbs as [|cb cbs IH]; simpl; constructor; [|exact IH].
  destruct (member cb); [apply H|apply same_setup_refl].
Qed.

(** The first part of either hook, when it returns: the callbacks keep
    their setup, and nothing else of the world changes but the log. *)
Lemma first_part_setup (prep : M unit) w w1 :
  (exists i dt, prep = trial_results mean cls i dt)
  \/ (exists i dt, prep = recomputed_preds cls i dt) ->
  prep w = (ok tt, w1) ->
  Forall2 same_setup (callbacks w) (callbacks w1)
  /\ history w1 = history w /\ net_dict w1 = net_dict w
  /\ net_device w1 = net_device w /\ iterators w1 = iterators w.
Proof.
  intros [(i & dt & ->)|(i & dt & ->)] H.
  - unfold trial_results in H.
    apply mbind_ok_inv in H as (self & w0 & Hget & H).
    apply get_callback_ok in Hget as [Hself ->].
    apply mbind_ok_inv in H as ([] & w0 & Hassert & H).
    unfold lift in Hassert. injection Hassert as _ <-.
    destruct (negb (crops_to_trials_computed self)).
    + unfold crops_to_trials in H.
      apply mbind_ok_inv in H as ([] & w2 & Hobs & H).
      apply mbind_ok_inv in H as ([p y] & w3 & Hres & H).
      unfold lift in Hres. injection Hres as Hres <-.
      unfold observe, modify in Hobs. injection Hobs as <-.
      unfold broadcast, modify in H. injection H as <-. simpl.
      repeat split. apply broadcast_same_setup. intros cb. repeat split.
    + injection H as <-. repeat split.
      apply Forall_Forall2_diag, Forall_forall. intros cb _.
      apply same_setup_refl.
  - unfold recomputed_preds in H.
    apply mbind_ok_inv in H as (self & w0 & Hget & H).
    apply get_callback_ok in Hget as [Hself ->].
    destruct (length (y_preds_ self) =? 0)%nat.
    + unfold recompute in H.
      apply mbind_ok_inv in H as ([] & w2 & Hobs & H).
      apply mbind_ok_inv in H as ([p y] & w3 & Hres & H).
      unfold lift in Hres. injection Hres as Hres <-.
      unfold observe, modify in Hobs. injection Hobs as <-.
      unfold broadcast, modify in H. injection H as <-. simpl.
      repeat split. apply broadcast_same_setup. intros cb. repeat split.
    + injection H as <-. repeat split.
      apply Forall_Forall2_diag, Forall_forall. intros cb _.
      apply same_setup_refl.
Qed.

Lemma trial_results_use_caching i (dt : dataset) w w1 :
  trial_results mean cls i dt w = (ok tt, w1) ->
  exists self, callbacks w !! i = Some self /\ use_caching self = true.
Proof.
  intros H. apply trial_results_cases in H as (self & Hself & Huc & _).
  eauto.
Qed.

(** The scoring block, when it returns, has handed the history and one
    score to [_record_score] and left the callbacks alone. *)
Lemma score_and_record_once self (b : bool) (ds : dataset) w w' :
  score_and_record cls self b ds w = (ok tt, w') ->
  callbacks w' = callbacks w
  /\ exists s, history w' = history_record cls self s (history w).
Proof.
  destruct b.
  - rewrite score_and_record_spec.
    destruct (run cls _ _).1 as [e|s]; [discriminate|].
    intros [= <-]. split; [reflexivity|]. exists s. reflexivity.
  - unfold score_and_record, _cache_net_forward_iter. cbn [negb].
    intros H. apply mbind_ok_inv in H as (s & w1 & Hrun & H).
    pose proof (run_frame cls (scoring self ds (y_trues_ self)) w)
      as (_ & _ & Hh & Hc & _).
    rewrite Hrun in Hh, Hc. simpl in Hh, Hc.
    unfold _record_score, modify in H. injection H as <-. simpl.
    split; [exact Hc|]. exists s. rewrite Hh. reflexivity.
Qed.

(** Both hooks are a first part that shares the results, then the
    scoring block of the callback as it stands after the first part. *)
Lemma scorer_hook_history (prep : M unit) (b : callback -> bool)
    (ds : callback -> dataset) i w w' :
  (exists i dt, prep = trial_results mean cls i dt)
  \/ (exists i dt, prep = recomputed_preds cls i dt) ->
  mbind prep (fun _ =>
    mbind (get_callback i) (fun self =>
      score_and_record cls self (b self) (ds self))) w
  = (ok tt, w') ->
  Forall2 same_setup (callbacks w) (callbacks w')
  /\ exists self' s,
       callbacks w' !! i = Some self'
       /\ history w' = history_record cls self' s (history w).
Proof.
  intros Hprep Hrun.
  apply mbind_ok_inv in Hrun as ([] & w1 & Hp & Hrun).
  apply mbind_ok_inv in Hrun as (self' & w2 & Hget & Hrun).
  apply get_callback_ok in Hget as [Hself' ->].
  destruct (first_part_setup prep w w1 Hprep Hp) as (Hsetup & Hh & _).
  apply score_and_record_once in Hrun as (Hc & s & Hs).
  split; [rewrite Hc; exact Hsetup|].
  exists self', s. rewrite Hc, Hs, Hh. split; [exact Hself'|reflexivity].
Qed.

(** X10.  A hook of a trial scorer or of a post-epoch scorer that returns
    calls [_record_score] once, after the scoring: the history of the net
    is what that method makes of the history before the hook, given the
    callback as the hook left it and one score.  The hook changes the
    kind, name, data split, caching flag and scoring function of no
    callback. *)
Theorem hook_records_one_score i (dt dv : dataset) w self g :
  callbacks w !! i = Some self ->
  group_of self = Some g ->
  (on_epoch_end mean cls i dt dv w).1 = ok tt ->
  let w' := (on_epoch_end mean cls i dt dv w).2 in
  Forall2 same_setup (callbacks w) (callbacks w')
  /\ exists self' s,
       callbacks w' !! i = Some self'
       /\ same_setup self self'
       /\ history w' = history_record cls self' s (history w).
Proof.
  intros Hself Hg Hok w'.
  assert (Hrun : on_epoch_end mean cls i dt dv w = (ok tt, w')).
  { subst w'. destruct (on_epoch_end mean cls i dt dv w).
    simpl in *. congruence. }
  clearbody w'. clear Hok.
  assert (Hhook : Forall2 same_setup (callbacks w) (callbacks w')
                  /\ exists self' s,
                       callbacks w' !! i = Some self'
                       /\ history w' = history_record cls self' s (history w)).
  { unfold on_epoch_end in Hrun.
    apply mbind_ok_inv in Hrun as (cb & w0 & Hget & Hrun).
    apply get_callback_ok in Hget as [Hcb ->].
    rewrite Hself in Hcb. injection Hcb as <-.
    unfold group_of in Hg. destruct (cb_kind self); [| |discriminate].
    - apply (scorer_hook_history (trial_results mean cls i dt) use_caching
               (fun self => if on_train self then dt else dv));
        [left; eauto|exact Hrun].
    - apply (scorer_hook_history (recomputed_preds cls i dt)
               (fun _ => true) (fun _ => dt));
        [right; eauto|exact Hrun]. }
  destruct Hhook as (Hsetup & self' & s & Hself' & Hh).
  split; [exact Hsetup|]. exists self', s.
  split; [exact Hself'|]. split; [|exact Hh].
  exact (Forall2_lookup_lr _ _ _ _ _ _ Hsetup Hself Hself').
Qed.

End HistoryFacts.

Lemma hook_records_one_score_witness :
  let w := net_with [valid_scorer "accuracy" count_batches;
                     train_scorer "train_accuracy"] in
  let w' := (on_epoch_end mean cls 1%nat 10%nat 20%nat w).2 in
  Forall2 same_setup (callbacks w) (callbacks w')
  /\ exists self' s,
       callbacks w' !! 1%nat = Some self'
       /\ same_setup (train_scorer "train_accuracy") self'
       /\ history w' = history_record cls self' s (history w).
Proof.
  intros w.
  apply (hook_records_one_score mean cls 1%nat 10%nat 20%nat w
           (train_scorer "train_accuracy") PostEpochGroup);
    reflexivity.
Defined.

(** ** The hooks when something is missing or fails *)

Section HookFailures.
Context {F dataset batch_X : Type} (mean : list F -> F)
  (cls : @net_class F dataset batch_X).
Implicit Types (w : @world F dataset) (self cb : @callback F dataset).

(** X11.  A trial scorer built with [use_caching=False] fails the
    assertion at the top of its hook: nothing is computed, shared or
    recorded, the net and its callbacks are as they were. *)
Theorem caching_misuse_is_fatal i (dt dv : dataset) w self :
  callbacks w !! i = Some self ->
  cb_kind self = CroppedTrialEpochScoring ->
  use_caching self = false ->
  on_epoch_end mean cls i dt dv w = (raise (AssertionError None), w).
Proof.
  intros Hself Hkind Huc.
  assert (Hget : get_callback i w = (ok self, w))
    by (unfold get_callback; rewrite Hself; reflexivity).
  unfold on_epoch_end. rewrite (mbind_ok _ _ _ _ _ Hget), Hkind.
  unfold CroppedTrialEpochScoring_on_epoch_end.
  apply mbind_raise. unfold trial_results.
  rewrite (mbind_ok _ _ _ _ _ Hget).
  apply mbind_raise. unfold lift, py_assert. rewrite Huc. reflexivity.
Qed.

(** The shared computation of a hook raises: the hook raises the same
    exception right after the computation was started. *)
Lemma failed_computation i (dt dv : dataset) w self (e : exn) :
  callbacks w !! i = Some self ->
  needs_compute self = true ->
  (cb_kind self = CroppedTrialEpochScoring /\ use_caching self = true
   /\ trial_preds_and_ys mean cls self dt = raise e)
  \/ (cb_kind self = PostEpochTrainScoring
      /\ recomputed cls self dt = raise e) ->
  exists g,
    on_epoch_end mean cls i dt dv w = (raise e, (observe (Compute g) w).2).
Proof.
  intros Hself Hneed Hfail.
  assert (Hget : get_callback i w = (ok self, w))
    by (unfold get_callback; rewrite Hself; reflexivity).
  unfold on_epoch_end. rewrite (mbind_ok _ _ _ _ _ Hget).
  destruct Hfail as [(Hkind & Huc & Hres)|(Hkind & Hres)];
    unfold needs_compute in Hneed; rewrite Hkind in Hneed |- *.
  - exists (CroppedGroup (on_train self)).
    unfold CroppedTrialEpochScoring_on_epoch_end.
    apply mbind_raise. unfold trial_results.
    rewrite (mbind_ok _ _ _ _ _ Hget).
    assert (Hassert : lift (py_assert (use_caching self) None) w
                      = (ok tt, w))
      by (unfold lift, py_assert; rewrite Huc; reflexivity).
    rewrite (mbind_ok _ _ _ _ _ Hassert), Hneed.
    unfold crops_to_trials.
    erewrite mbind_ok by reflexivity.
    apply mbind_raise. unfold lift. rewrite Hres. reflexivity.
  - exists PostEpochGroup.
    unfold PostEpochTrainScoring_on_epoch_end.
    apply mbind_raise. unfold recomputed_preds.
    rewrite (mbind_ok _ _ _ _ _ Hget), Hneed.
    unfold recompute.
    erewrite mbind_ok by reflexivity.
    apply mbind_raise. unfold lift. rewrite Hres. reflexivity.
Qed.

(** X12.  When the shared computation of a hook raises (the reassembler
    on malformed window numbers, the labels, inference on the training
    set), the hook raises the same exception, no callback of the group
    gets a result, and nothing is written into the history nor into the
    instance dict of the net. *)
Theorem failed_computation_is_not_shared i (dt dv : dataset) w self
    (e : exn) :
  callbacks w !! i = Some self ->
  needs_compute self = true ->
  (cb_kind self = CroppedTrialEpochScoring /\ use_caching self = true
   /\ trial_preds_and_ys mean cls self dt = raise e)
  \/ (cb_kind self = PostEpochTrainScoring
      /\ recomputed cls self dt = raise e) ->
  let out := on_epoch_end mean cls i dt dv w in
  out.1 = raise e
  /\ callbacks out.2 = callbacks w
  /\ history out.2 = history w
  /\ net_dict out.2 = net_dict w.
Proof.
  intros Hself Hneed Hfail out. subst out.
  destruct (failed_computation i dt dv w self e Hself Hneed Hfail)
    as [g ->].
  repeat split.
Qed.

Lemma buffered_pred_results_empty self :
  supercrop_inds_ self = [] ->
  @buffered_pred_results F dataset self = raise ValueError.
Proof. intros H. unfold buffered_pred_results. rewrite H. reflexivity. Qed.

Lemma recomputed_empty self (dt : dataset) :
  get_iterator cls dt = [] -> recomputed cls self dt = raise ValueError.
Proof. intros H. unfold recomputed. rewrite H. reflexivity. Qed.

(** X13.  Nothing to compute from: the hook of a trial scorer on the
    validation set whose [supercrop_inds_] is empty (as
    [_initialize_cache] leaves it), and the hook of a post-epoch scorer
    on a training set without batches, raise the [ValueError] of
    [np.concatenate] and record nothing. *)
Theorem empty_buffers_raise i (dt dv : dataset) w self :
  callbacks w !! i = Some self ->
  (cb_kind self = CroppedTrialEpochScoring -> use_caching self = true ->
   crops_to_trials_computed self = false -> on_train self = false ->
   supercrop_inds_ self = [] ->
   (on_epoch_end mean cls i dt dv w).1 = raise ValueError
   /\ history (on_epoch_end mean cls i dt dv w).2 = history w)
  /\ (cb_kind self = PostEpochTrainScoring -> y_preds_ self = [] ->
      get_iterator cls dt = [] ->
      (on_epoch_end mean cls i dt dv w).1 = raise ValueError
      /\ history (on_epoch_end mean cls i dt dv w).2 = history w).
Proof.
  intros Hself. split.
  - intros Hkind Huc Hcomp Htrain Hempty.
    destruct (failed_computation i dt dv w self ValueError Hself) as [g ->].
    + unfold needs_compute. rewrite Hkind, Hcomp. reflexivity.
    + left. split; [exact Hkind|]. split; [exact Huc|].
      unfold trial_preds_and_ys.
      rewrite Htrain, (buffered_pred_results_empty self Hempty).
      reflexivity.
    + split; reflexivity.
  - intros Hkind Hpreds Hempty.
    destruct (failed_computation i dt dv w self ValueError Hself) as [g ->].
    + unfold needs_compute. rewrite Hkind, Hpreds. reflexivity.
    + right. split; [exact Hkind|]. apply recomputed_empty. exact Hempty.
    + split; reflexivity.
Qed.

(** The loop over the batches: the predictions of the batches on the
    cpu and the extracted labels, appended in the order of the batches;
    the first evaluation step that raises ends it. *)
Lemma recompute_loop self (batches : list (batch_X * list label)) :
  forall acc,
    for_each (recompute_batch cls self) acc batches
    = let* yps := all_ok (map (fun b => evaluation_step cls (fst b))
                            batches) in
      ok (acc.1 ++ map (to "cpu") yps,
          acc.2 ++ map (fun b => target_extractor self (snd b)) batches).
Proof.
  induction batches as [|[bx by_] batches IH]; intros [yps yts]; simpl.
  - rewrite !app_nil_r. reflexivity.
  - destruct (evaluation_step cls bx) as [e|yp]; simpl; [reflexivity|].
    rewrite IH. simpl.
    destruct (all_ok _) as [e|yps']; simpl; [reflexivity|].
    rewrite <- !app_assoc. reflexivity.
Qed.

(** X14.  The recomputation on the training set holds, when it returns,
    one prediction per batch, moved to the cpu, in the order of the
    batches, and the labels of all batches, extracted and concatenated;
    it raises what the first failing evaluation step raises. *)
Theorem recomputed_spec self (dt : dataset) :
  let batches := get_iterator cls dt in
  let steps := all_ok (map (fun b => evaluation_step cls (fst b)) batches) in
  (forall yps,
      steps = ok yps -> batches <> [] ->
      recomputed cls self dt
      = ok (map (to "cpu") yps,
            LabelArray
              (concat (map (fun b => target_extractor self (snd b))
                         batches))))
  /\ (forall e, steps = raise e -> recomputed cls self dt = raise e).
Proof.
  intros batches steps. unfold recomputed. rewrite recompute_loop.
  fold batches. fold steps. split.
  - intros yps -> Hne. simpl.
    destruct batches as [|b bs]; [congruence|]. reflexivity.
  - intros e ->. reflexivity.
Qed.

End HookFailures.

Lemma caching_misuse_is_fatal_witness :
  let scorer : @callback Z nat :=
    Callback CroppedTrialEpochScoring "accuracy" false false count_batches
      (fun ys => ys) false [] (LabelBatches []) [] in
  on_epoch_end mean cls 0 10%nat 20%nat (net_with [scorer])
  = (raise (AssertionError None), net_with [scorer]).
Proof.
  intros scorer.
  apply (caching_misuse_is_fatal mean cls 0 10%nat 20%nat
           (net_with [scorer]) scorer);
    reflexivity.
Defined.

Lemma failed_computation_is_not_shared_witness :
  let scorer : @callback Z nat :=
    Callback CroppedTrialEpochScoring "accuracy" false true count_batches
      (fun ys => ys) false
      [Tensor (Windows [[[1; 2; 3]]; [[4; 5; 6]]]%Z) "cuda"]
      (LabelBatches [[7; 7]%Z])
      [([0; 2]%Z, [0; 2]%Z, [3; 5]%Z)] in
  let w := net_with [scorer; valid_scorer "f1" count_batches] in
  let out := on_epoch_end mean cls 0 10%nat 20%nat w in
  out.1 = raise (AssertionError start_msg)
  /\ callbacks out.2 = callbacks w
  /\ history out.2 = history w
  /\ net_dict out.2 = net_dict w.
Proof.
  intros scorer w.
  apply (failed_computation_is_not_shared mean cls 0 10%nat 20%nat w scorer
           (AssertionError start_msg));
    [reflexivity|reflexivity|].
  left. repeat split.
Defined.

Lemma empty_buffers_raise_witness :
  let scorer : @callback Z nat :=
    _initialize_cache (valid_scorer "accuracy" count_batches) in
  let w := net_with [scorer] in
  (on_epoch_end mean cls 0 10%nat 20%nat w).1 = raise ValueError
  /\ history (on_epoch_end mean cls 0 10%nat 20%nat w).2 = history w.
Proof.
  intros scorer w.
  apply (proj1 (empty_buffers_raise mean cls 0 10%nat 20%nat w scorer
                  eq_refl));
    reflexivity.
Defined.

Lemma recomputed_spec_witness :
  recomputed cls (train_scorer "train_accuracy") 10%nat
  = ok ([Tensor (Windows [[[1]]]%Z) "cpu"; Tensor (Windows [[[2]]]%Z) "cpu"],
        LabelArray [1; 0; 1]%Z).
Proof.
  apply (proj1 (recomputed_spec cls (train_scorer "train_accuracy") 10%nat)
           [Tensor (Windows [[[1]]]%Z) "cuda";
            Tensor (Windows [[[2]]]%Z) "cuda"]);
    [reflexivity|discriminate].
Defined.

(** ** The shape of the shared predictions, and the groups *)

Section SharedResults.
Context {F dataset batch_X : Type} (mean : list F -> F)
  (cls : @net_class F dataset batch_X).
Implicit Types (w : @world F dataset) (self cb : @callback F dataset).

Lemma trial_pred_rows (n_classes : nat) (t : trial F) (o : array2 F) :
  t <> [] ->
  Forall (fun ws => length (fst ws) = n_classes) t ->
  trial_pred t = ok o -> length o = n_classes.
Proof.
  intros Hne Hrows Ho. unfold trial_pred in Ho.
  destruct (concatenate_axis1_rows n_classes (kept_from None t))
    as (r & Hr & Hlen).
  - destruct t as [|[w s] t]; [congruence|discriminate].
  - apply kept_from_rows. exact Hrows.
  - rewrite Hr in Ho. injection Ho as <-. exact Hlen.
Qed.

Lemma np_array_2d_uniform (n : nat) (rows : list (list F)) :
  Forall (fun r => length r = n) rows -> np_array_2d rows = ok rows.
Proof.
  intros H. unfold np_array_2d. destruct rows as [|r rs]; [reflexivity|].
  inversion H as [|? ? Hr Hrs].
  replace (forallb _ rs) with true; [reflexivity|].
  symmetry. apply forallb_forall. intros r' Hr'.
  rewrite Forall_forall in Hrs. apply Nat.eqb_eq.
  rewrite Hr. apply Hrs, list_elem_of_In. exact Hr'.
Qed.

(** X15.  For a trial scorer on the training set whose net delivers
    well-formed window numbers, as many predictions, stops and labels,
    and windows of [n_classes] rows: the shared predictions are one
    tensor on the cpu with one row per trial (per 0 among the window
    numbers) and [n_classes] means per row, and the shared labels are
    picked among the labels of the windows. *)
Theorem shared_predictions_shape (n_classes : nat) self (dt : dataset)
    (pred : pred_results) :
  on_train self = true ->
  predict_with_supercrop_inds_and_ys cls dt = ok pred ->
  well_formed (i_supercrop_in_trials pred) = true ->
  length (preds pred) = length (i_supercrop_in_trials pred) ->
  length (i_supercrop_stops pred) = length (i_supercrop_in_trials pred) ->
  length (supercrop_ys pred) = length (i_supercrop_in_trials pred) ->
  Forall (fun a : array2 F => length a = n_classes) (preds pred) ->
  exists m ys,
    trial_preds_and_ys mean cls self dt
    = ok ([Tensor (Matrix m) "cpu"], LabelArray ys)
    /\ length m = count_occ Z.eq_dec (i_supercrop_in_trials pred) 0%Z
    /\ Forall (fun r => length r = n_classes) m
    /\ sublist ys (supercrop_ys pred).
Proof.
  intros Htrain Hpred Hwf Hp Hs Hy Hrows.
  unfold trial_preds_and_ys. rewrite Htrain, Hpred. simpl.
  unfold trial_ys_of, boolean_index, supercrop_0_per_trial_mask,
    diff_prepend.
  rewrite length_map, diff_from_length, Hy, Nat.eqb_refl. simpl.
  destruct (reassembler_returns n_classes _ _ _ Hwf Hp Hs Hrows)
    as (out & Hout & Hall).
  rewrite Hout. simpl.
  assert (Hout_rows : Forall (fun o => length o = n_classes) out).
  { pose proof (split_trials_facts n_classes _ _ _ Hwf Hp Hs Hrows)
      as Hfacts.
    clear Hout. apply all_ok_Forall2 in Hall. revert Hfacts Hall.
    generalize (split_trials
                  (zip (preds pred)
                     (zip (i_supercrop_in_trials pred)
                        (i_supercrop_stops pred)))) as ts.
    intros ts Hfacts Hall.
    induction Hall as [|o t out' ts Ht _ IH]; constructor.
    - inversion Hfacts as [|? ? [Hne Hr] _].
      exact (trial_pred_rows n_classes t o Hne Hr Ht).
    - apply IH. inversion Hfacts; assumption. }
  assert (Hm : Forall (fun r => length r = n_classes)
                 (map (map mean) out)).
  { apply Forall_forall. intros r Hr.
    apply list_elem_of_fmap in Hr as (o & -> & Ho). rewrite length_map.
    rewrite Forall_forall in Hout_rows. apply Hout_rows. exact Ho. }
  unfold y_preds_per_trial_of.
  rewrite (np_array_2d_uniform n_classes _ Hm). simpl.
  do 2 eexists. split; [reflexivity|]. split; [|split].
  - pose proof (all_ok_length _ _ Hall) as Hl.
    rewrite length_map in Hl |- *.
    rewrite <- (count_zero_split _ _ _ Hwf Hp Hs). exact Hl.
  - exact Hm.
  - apply select_sublist.
Qed.

(** X16.  The groups do not mix: a hook that returns leaves every
    callback of another group, and every callback that is no scorer,
    exactly as it was. *)
Theorem other_groups_untouched i (dt dv : dataset) w cb :
  (on_epoch_end mean cls i dt dv w).1 = ok tt ->
  callbacks w !! i = Some cb ->
  forall j cbj,
    callbacks w !! j = Some cbj ->
    group_of cbj <> group_of cb ->
    callbacks (on_epoch_end mean cls i dt dv w).2 !! j = Some cbj.
Proof.
  intros Hrun Hcb j cbj Hj Hgroup.
  destruct (on_epoch_end mean cls i dt dv w) as [r w'] eqn:Hhook.
  simpl in Hrun |- *. subst r.
  apply on_epoch_end_effect in Hhook as (cb' & Hcb' & Heff).
  assert (cb' = cb) as -> by congruence.
  destruct (group_of cb) as [g|] eqn:Hg.
  - destruct (needs_compute cb).
    + destruct Heff as (_ & p & y & HE).
      destruct (Forall2_lookup_l _ _ _ _ _ HE Hj) as (cbj' & Hj' & _ & Hrest).
      destruct (in_group g cbj) eqn:Hin.
      * apply in_group_eq in Hin. congruence.
      * subst cbj'. exact Hj'.
    + destruct Heff as [-> _]. exact Hj.
  - destruct Heff as [-> _]. exact Hj.
Qed.

End SharedResults.

Lemma shared_predictions_shape_witness :
  exists m ys,
    trial_preds_and_ys mean cls (train_scorer "train_accuracy") 10%nat
    = ok ([Tensor (Matrix m) "cpu"], LabelArray ys)
    /\ length m = count_occ Z.eq_dec [0; 1]%Z 0%Z
    /\ Forall (fun r => length r = 1%nat) m
    /\ sublist ys [7; 7]%Z.
Proof.
  apply (shared_predictions_shape mean cls 1%nat
           (train_scorer "train_accuracy") 10%nat two_windows);
    try reflexivity.
  repeat constructor.
Defined.

Lemma other_groups_untouched_witness :
  let w := net_with [valid_scorer "accuracy" count_batches;
                     train_scorer "train_accuracy"] in
  callbacks (on_epoch_end mean cls 0 10%nat 20%nat w).2 !! 1%nat
  = Some (train_scorer "train_accuracy").
Proof.
  intros w.
  apply (other_groups_untouched mean cls 0 10%nat 20%nat w
           (valid_scorer "accuracy" count_batches) eq_refl eq_refl 1%nat
           (train_scorer "train_accuracy") eq_refl).
  discriminate.
Defined.

(** ** The reassembler on inputs put one after the other *)

Section Batches.
Context {A : Type}.
Implicit Types (l : list (array2 A * (Z * Z))) (preds : list (array2 A)).

Lemma split_trials_nil l : split_trials l = [] -> l = [].
Proof.
  destruct l as [|[w [i s]] l]; [reflexivity|]. cbn [split_trials].
  destruct (split_trials l); [discriminate|].
  destruct (starts_trial l); discriminate.
Qed.

Lemma split_trials_app l1 l2 :
  starts_trial l2 = true ->
  split_trials (l1 ++ l2) = split_trials l1 ++ split_trials l2.
Proof.
  intros H2. induction l1 as [|[w [i s]] l1 IH]; [reflexivity|].
  cbn [app split_trials]. rewrite IH.
  destruct l1 as [|x l1].
  - cbn [split_trials app]. rewrite H2.
    destruct (split_trials l2); reflexivity.
  - destruct (split_trials (x :: l1)) as [|g gs] eqn:E.
    + apply split_trials_nil in E. discriminate.
    + cbn [app]. destruct x as [w' [i' s']]. cbn [starts_trial app].
      destruct (i' =? 0)%Z; reflexivity.
Qed.

Lemma all_ok_app {B} (r1 r2 : list (result B)) :
  all_ok (r1 ++ r2)
  = let* x := all_ok r1 in let* y := all_ok r2 in ok (x ++ y).
Proof.
  induction r1 as [|r r1 IH]; simpl.
  - destruct (all_ok r2); reflexivity.
  - destruct r as [e|a]; simpl; [reflexivity|]. rewrite IH.
    destruct (all_ok r1); simpl; [reflexivity|].
    destruct (all_ok r2); reflexivity.
Qed.

Lemma follows_app (idx1 idx2 : list Z) :
  forall prev,
    follows prev idx1 = true -> well_formed idx2 = true ->
    follows prev (idx1 ++ idx2) = true.
Proof.
  induction idx1 as [|i idx1 IH]; intros prev H1 H2.
  - destruct idx2 as [|j idx2]; [discriminate|]. simpl in *.
    apply andb_true_iff in H2 as [H0 Hf]. rewrite H0, orb_true_r. exact Hf.
  - simpl in *. apply andb_true_iff in H1 as [Hi Hf]. rewrite Hi.
    apply IH; assumption.
Qed.

Lemma well_formed_app (idx1 idx2 : list Z) :
  well_formed idx1 = true -> well_formed idx2 = true ->
  well_formed (idx1 ++ idx2) = true.
Proof.
  destruct idx1 as [|i idx1]; [discriminate|]. simpl.
  intros H1 H2. apply andb_true_iff in H1 as [H0 Hf]. rewrite H0.
  apply follows_app; assumption.
Qed.

(** X17.  Trials do not influence each other: the reassembler on two
    well-formed inputs put one after the other returns the trials of the
    first followed by the trials of the second, and raises when it
    raises on one of them (on the first one first). *)
Theorem reassembler_of_two_inputs preds1 preds2
    (idx1 idx2 stops1 stops2 : list Z) :
  well_formed idx1 = true -> well_formed idx2 = true ->
  length preds1 = length idx1 -> length stops1 = length idx1 ->
  length preds2 = length idx2 -> length stops2 = length idx2 ->
  trial_preds_from_supercrop_preds (preds1 ++ preds2) (idx1 ++ idx2)
    (stops1 ++ stops2)
  = let* out1 := trial_preds_from_supercrop_preds preds1 idx1 stops1 in
    let* out2 := trial_preds_from_supercrop_preds preds2 idx2 stops2 in
    ok (out1 ++ out2).
Proof.
  intros Hwf1 Hwf2 Hp1 Hs1 Hp2 Hs2.
  rewrite !reassembler_by_trials;
    try assumption;
    try (rewrite !length_app; congruence);
    try (apply well_formed_app; assumption).
  rewrite (zip_with_app pair idx1 idx2 stops1 stops2) by congruence.
  rewrite (zip_with_app pair preds1 preds2)
    by (rewrite length_zip_with; lia).
  rewrite split_trials_app, map_app, all_ok_app; [reflexivity|].
  destruct idx2 as [|i idx2]; [discriminate|].
  destruct preds2 as [|p preds2]; [discriminate|].
  destruct stops2 as [|s stops2]; [discriminate|].
  simpl in Hwf2 |- *. apply andb_true_iff in Hwf2 as [H0 _]. exact H0.
Qed.

End Batches.

Lemma reassembler_of_two_inputs_witness :
  trial_preds_from_supercrop_preds
    ([[[1; 2; 3]]; [[4; 5; 6]]] ++ [[[7; 8; 9]]])%Z
    ([0; 1] ++ [0])%Z ([3; 5] ++ [3])%Z
  = ok ([[[1; 2; 3; 5; 6]]] ++ [[[7; 8; 9]]])%Z.
Proof.
  etransitivity;
    [exact (reassembler_of_two_inputs
              [[[1; 2; 3]]; [[4; 5; 6]]]%Z [[[7; 8; 9]]]%Z
              [0; 1]%Z [0]%Z [3; 5]%Z [3]%Z
              eq_refl eq_refl eq_refl eq_refl eq_refl eq_refl)
    |reflexivity].
Defined.

Lemma reassembler_result_not_empty_witness :
  [[[1; 2; 3]]]%Z <> [] /\ [[[1; 2; 3]]]%Z <> [].
Proof.
  apply (proj1 (reassembler_result_not_empty
                  [[[1; 2; 3]]]%Z [0]%Z [3]%Z) [[[1; 2; 3]]]%Z).
  reflexivity.
Defined.
